(** * prepare_to_import_ninja.py: a shallow embedding and its specification

    The script turns Level-1 tick files (one CSV per trading day) into one
    NinjaTrader "Tick Replay" file per futures contract.  Python [str]
    values are lists of Unicode code points ([pystr]); Python [int]s are
    [Z]; exceptions are the type [Exc]; the mutable objects of the run
    (open handles, per-contract bid/ask state, output directory) form the
    [World] threaded through a small state-and-exception monad [M]. *)

From Stdlib Require Import ZArith Lia List Ascii String.
From stdpp Require Import base list gmap sets strings.
Import ListNotations.
Open Scope Z_scope.

(* ================================================================== *)
(** ** Python strings *)

(** A Python [str]: its code points. *)
Abbreviation pystr := (list Z).

(** ASCII string literal as a [pystr]. *)
Definition u (s : string) : pystr :=
  map (fun a => Z.of_nat (nat_of_ascii a)) (list_ascii_of_string s).

(** [str.isspace] (CPython's [_PyUnicode_IsWhitespace] table, complete). *)
Definition is_space (c : Z) : bool :=
  ((9 <=? c) && (c <=? 13)) || ((28 <=? c) && (c <=? 32)) ||
  (c =? 133) || (c =? 160) || (c =? 5760) ||
  ((8192 <=? c) && (c <=? 8202)) || (c =? 8232) || (c =? 8233) ||
  (c =? 8239) || (c =? 8287) || (c =? 12288).

(** Code points of the digit zero of the Unicode decimal-digit (Nd) runs
    of Unicode 14.0 (the database of Python 3.11): all 66 of them, each run
    ten consecutive code points valued 0..9. *)
Definition nd_zeros : list Z :=
  [48; 1632; 1776; 1984; 2406; 2534; 2662; 2790; 2918; 3046; 3174; 3302;
   3430; 3558; 3664; 3792; 3872; 4160; 4240; 6112; 6160; 6470; 6608; 6784;
   6800; 6992; 7088; 7232; 7248; 42528; 43216; 43264; 43472; 43504; 43600;
   44016; 65296; 66720; 68912; 69734; 69872; 69942; 70096; 70384; 70736;
   70864; 71248; 71360; 71472; 71904; 72016; 72784; 73040; 73120; 92768;
   92864; 93008; 120782; 120792; 120802; 120812; 120822; 123200; 123632;
   125264; 130032].

(** [unicodedata.decimal]: the value of a decimal digit (what [int()],
    [Decimal()] and the regex class [\d] accept). *)
Definition decimal_value (c : Z) : option Z :=
  match List.find (fun z => (z <=? c) && (c <=? z + 9)) nd_zeros with
  | Some z => Some (c - z)
  | None => None
  end.

Definition is_decimal (c : Z) : bool := bool_decide (is_Some (decimal_value c)).

(** The code points of numeric type Digit that are not decimal digits
    (superscripts, subscripts, circled, parenthesized and dingbat digits,
    Ethiopic, Khmer-symbol, Kharoshthi, Rumi, Brahmi and enclosed digits),
    as inclusive ranges. *)
Definition digit_ranges : list (Z * Z) :=
  [(178, 179); (185, 185); (4969, 4977); (6618, 6618); (8304, 8304);
   (8308, 8313); (8320, 8329); (9312, 9320); (9332, 9340); (9352, 9360);
   (9450, 9450); (9461, 9469); (9471, 9471); (10102, 10110);
   (10112, 10120); (10122, 10130); (68160, 68163); (69216, 69224);
   (69714, 69722); (127232, 127242)].

(** [str.isdigit] on one code point: a decimal digit or a Digit. *)
Definition is_digit_char (c : Z) : bool :=
  is_decimal c || existsb (fun '(a, b) => (a <=? c) && (c <=? b)) digit_ranges.

(** [str.isdigit()]: non-empty and every character a digit. *)
Definition py_isdigit (s : pystr) : bool :=
  negb (bool_decide (s = [])) && forallb is_digit_char s.

Fixpoint lstrip (s : pystr) : pystr :=
  match s with
  | c :: t => if is_space c then lstrip t else s
  | [] => []
  end.

(** [str.strip()]. *)
Definition strip (s : pystr) : pystr := rev (lstrip (rev (lstrip s))).

Definition is_ascii_digit (c : Z) : bool := (48 <=? c) && (c <=? 57).

(** [int(s)] first maps the string to ASCII
    ([_PyUnicode_TransformDecimalAndSpaceToASCII]): a character below
    U+007F is kept, other whitespace becomes a space, a decimal digit its
    ASCII digit; any other character makes the conversion fail. *)
Definition int_ascii_char (c : Z) : option Z :=
  if c <? 127 then Some c
  else if is_space c then Some 32
  else option_map (fun d => 48 + d) (decimal_value c).

Fixpoint int_ascii (s : pystr) : option pystr :=
  match s with
  | [] => Some []
  | c :: t =>
      match int_ascii_char c, int_ascii t with
      | Some x, Some r => Some (x :: r)
      | _, _ => None
      end
  end.

(** C's [isspace] in the C locale, which [PyLong_FromString] skips around
    the literal: space, [\t], [\n], [\v], [\f], [\r]. *)
Definition is_c_space (c : Z) : bool := (c =? 32) || ((9 <=? c) && (c <=? 13)).

Fixpoint skip_c_space (s : pystr) : pystr :=
  match s with
  | c :: t => if is_c_space c then skip_c_space t else s
  | [] => []
  end.

(** The rest of a base-10 literal after its first digit ([PyLong_FromString]):
    digits, each optionally preceded by one underscore ([prev_us]: the last
    character was an underscore), then only whitespace.  Returns the value
    and the number of digits. *)
Fixpoint int_body (acc : Z) (n : nat) (prev_us : bool) (s : pystr) : option (Z * nat) :=
  match s with
  | c :: t =>
      if is_ascii_digit c then int_body (acc * 10 + (c - 48)) (S n) false t
      else if c =? 95 then (if prev_us then None else int_body acc n true t)
      else if prev_us then None
      else if bool_decide (skip_c_space s = []) then Some (acc, n) else None
  | [] => if prev_us then None else Some (acc, n)
  end.

(** The default [sys.get_int_max_str_digits()]. *)
Definition int_max_str_digits : nat := 4300.

(** [int(s)] for a [str] [s]: [None] is the [ValueError].  After the
    ASCII mapping: leading whitespace, an optional sign, a digit, the rest
    of the literal; more than [int_max_str_digits] digits are refused. *)
Definition py_int (s : pystr) : option Z :=
  match int_ascii s with
  | None => None
  | Some a =>
      let a := skip_c_space a in
      let '(neg, b) := match a with
                       | 43 :: r => (false, r)
                       | 45 :: r => (true, r)
                       | _ => (false, a)
                       end in
      match b with
      | c :: t =>
          if is_ascii_digit c then
            match int_body (c - 48) 1 false t with
            | Some (v, n) =>
                if (n <=? int_max_str_digits)%nat then Some (if neg then - v else v) else None
            | None => None
            end
          else None
      | [] => None
      end
  end.

(** Decimal digits of a non-negative integer (the fuel bounds the number
    of digits). *)
Fixpoint digits_rev (fuel : nat) (n : Z) : pystr :=
  match fuel with
  | O => []
  | S f => if n <? 10 then [48 + n] else (48 + n mod 10) :: digits_rev f (n / 10)
  end.

Definition z_digits (n : Z) : pystr := rev (digits_rev (S (Z.to_nat (Z.log2 (n + 1)))) n).

(** [str(n)] of an [int]. *)
Definition z_str (n : Z) : pystr := if n <? 0 then u "-" ++ z_digits (- n) else z_digits n.

Definition nat_str (n : nat) : pystr := z_digits (Z.of_nat n).

(** Python's [s[i:j]] for [0 <= i <= j]. *)
Definition slice (i j : nat) (s : pystr) : pystr := firstn (j - i) (skipn i s).

(* ================================================================== *)
(** ** Line parsing *)

Definition TYPE_BID : Z := 0.
Definition TYPE_ASK : Z := 1.
Definition TYPE_LAST : Z := 2.

(** [parse_line_fields]: [(timestamp20, level, type, price_str, volume_str)]
    or [None]. *)
Definition parse_line_fields (campos : list pystr)
  : option (pystr * Z * Z * pystr * pystr) :=
  if negb (bool_decide (length campos = 5%nat) || bool_decide (length campos = 7%nat))
  then None
  else
    let timestamp_raw := strip (nth 0 campos []) in
    if negb (bool_decide (length timestamp_raw = 20%nat)) || negb (py_isdigit timestamp_raw)
    then None
    else
      match py_int (nth 1 campos []), py_int (nth 2 campos []) with
      | Some level, Some dato_tipo =>
          Some (timestamp_raw, level, dato_tipo,
                strip (nth 3 campos []), strip (nth 4 campos []))
      | _, _ => None
      end.

(** [ts20_to_nt_parts]: date, time and 7-digit fraction. *)
Definition ts20_to_nt_parts (ts20 : pystr) : pystr * pystr * pystr :=
  let fecha := slice 0 8 ts20 in
  let hora := slice 8 14 ts20 in
  let micros6 := slice 14 20 ts20 in
  (fecha, hora, micros6 ++ u "0").

Example parse_l1_bid :
  parse_line_fields [u "20240101093000123456"; u "1"; u "0"; u "5000.00"; u "10"]
  = Some (u "20240101093000123456", 1, 0, u "5000.00", u "10").
Proof. vm_compute. reflexivity. Qed.

Example py_int_examples :
  py_int (u " +1_0 ") = Some 10 /\ py_int (u "1__0") = None /\ py_int (u "-7") = Some (-7)
  /\ py_int (u "") = None /\ py_int [1633] = Some 1 /\ py_int [6113; 6112] = Some 10
  /\ py_int [28; 49] = None /\ py_int [160; 49; 12288] = Some 1 /\ py_int [9332] = None
  /\ py_int (u "_1") = None /\ py_int (u "1_") = None /\ py_int (u "- 1") = None
  /\ py_int (repeat 49 4300) <> None /\ py_int (repeat 49 4301) = None.
Proof. vm_compute. repeat split; discriminate. Qed.

(* ================================================================== *)
(** ** Exceptions *)

(** The exceptions the per-file processing can raise.  A [ValueError]
    carries [str(e)], which can hold non-ASCII characters; the messages of
    the others are ASCII. *)
Inductive Exc :=
| ValueError (msg : pystr) (** symbol or file-name inference, invalid calendar date *)
| InvalidOperation  (** an ordering comparison of [Decimal]s involving a NaN *)
| CsvError          (** [csv.Error]: a field larger than the field limit *)
| OSError           (** opening or reading a day file *)
| UnicodeDecodeError (** a day file that is not valid UTF-8 *)
| UnicodeEncodeError. (** printing a character the standard output cannot encode *)

(* ================================================================== *)
(** ** Decimals *)

(** A [decimal.Decimal] value: finite [c * 10^e], signed infinity, or a
    quiet / signalling NaN (payload and sign of NaNs are not modelled). *)
Inductive Dec :=
| DFin (c e : Z)
| DInf (neg : bool)
| DNaN (signaling : bool).

(** The ASCII text [Decimal(str)] hands to libmpdec ([numeric_as_ascii]
    with [strip_ws] and [ignore_underscores]), applied after [str.strip]:
    underscores are dropped, characters U+0001..U+007F kept, other
    whitespace turned into a space, a decimal digit into its ASCII digit;
    any other character (NUL too) is a syntax error. *)
Fixpoint dec_ascii (s : pystr) : option pystr :=
  match s with
  | [] => Some []
  | c :: t =>
      if c =? 95 then dec_ascii t
      else
        let c' := if (0 <? c) && (c <=? 127) then Some c
                  else if is_space c then Some 32
                  else option_map (fun d => 48 + d) (decimal_value c) in
        match c', dec_ascii t with
        | Some x, Some r => Some (x :: r)
        | _, _ => None
        end
  end.

Fixpoint take_while (f : Z -> bool) (s : pystr) : pystr :=
  match s with
  | c :: t => if f c then c :: take_while f t else []
  | [] => []
  end.

Definition lower (c : Z) : Z := if (65 <=? c) && (c <=? 90) then c + 32 else c.

Fixpoint digits_value (acc : Z) (s : pystr) : Z :=
  match s with
  | [] => acc
  | c :: t => digits_value (acc * 10 + (c - 48)) t
  end.

(** The exponent part: [e] or [E], optional sign, at least one digit. *)
Definition parse_exponent (s : pystr) : option Z :=
  match s with
  | [] => Some 0
  | e :: t =>
      if lower e =? 101 then
        let '(neg, ds) := match t with
                          | 45 :: r => (true, r)
                          | 43 :: r => (false, r)
                          | _ => (false, t)
                          end in
        if negb (bool_decide (ds = [])) && forallb is_ascii_digit ds
        then Some (if neg then - digits_value 0 ds else digits_value 0 ds)
        else None
      else None
  end.

(** Unsigned numeric value: [digits [. digits] | . digits] then exponent;
    infinities and NaNs (case-insensitive, NaNs with optional digits). *)
Definition parse_unsigned (neg : bool) (s : pystr) : option Dec :=
  let ls := map lower s in
  if bool_decide (ls = u "inf") || bool_decide (ls = u "infinity") then Some (DInf neg)
  else if bool_decide (firstn 3 ls = u "nan") && forallb is_ascii_digit (skipn 3 ls)
  then Some (DNaN false)
  else if bool_decide (firstn 4 ls = u "snan") && forallb is_ascii_digit (skipn 4 ls)
  then Some (DNaN true)
  else
    let ip := take_while is_ascii_digit s in
    let r1 := skipn (length ip) s in
    let '(fp, r2) := match r1 with
                     | 46 :: r => let f := take_while is_ascii_digit r in
                                  (f, skipn (length f) r)
                     | _ => ([], r1)
                     end in
    if bool_decide (ip = []) && bool_decide (fp = []) then None
    else match parse_exponent r2 with
         | Some ex =>
             let c := digits_value 0 (ip ++ fp) in
             Some (DFin (if neg then - c else c) (ex - Z.of_nat (length fp)))
         | None => None
         end.

(** The exponent limits of libmpdec's maximum context, in which
    [Decimal(str)] converts: [MAX_EMAX] and [etiny = MIN_EMIN - MAX_PREC + 1]. *)
Definition MAX_EMAX : Z := 999999999999999999.
Definition MIN_ETINY : Z := -1999999999999999997.

(** The conversion must be exact: a finite value whose adjusted exponent
    exceeds [MAX_EMAX] (it would overflow) or whose exponent is below
    [MIN_ETINY] (it would be rounded or clamped) is invalid. *)
Definition dec_exact (d : Dec) : bool :=
  match d with
  | DFin c e => (e + Z.of_nat (length (z_digits (Z.abs c))) - 1 <=? MAX_EMAX) && (MIN_ETINY <=? e)
  | _ => true
  end.

(** [Decimal(s)] for a [str] [s]; [None] is the [InvalidOperation] the
    constructor raises on a syntax error or an inexact conversion.  The
    parsed text admits no whitespace. *)
Definition py_decimal (s : pystr) : option Dec :=
  match dec_ascii (strip s) with
  | None => None
  | Some a =>
      let r := match a with
               | 45 :: t => parse_unsigned true t
               | 43 :: t => parse_unsigned false t
               | t => parse_unsigned false t
               end in
      match r with
      | Some d => if dec_exact d then Some d else None
      | None => None
      end
  end.

Example py_decimal_examples :
  py_decimal (u "5000.25") = Some (DFin 500025 (-2)) /\
  py_decimal (u " -1_0e-3 ") = Some (DFin (-10) (-3)) /\
  py_decimal (u "Infinity") = Some (DInf false) /\ py_decimal (u "nan") = Some (DNaN false) /\
  py_decimal (u "abc") = None /\ py_decimal (u "") = None /\ py_decimal (u ".") = None /\
  py_decimal (u "5.") = Some (DFin 5 0) /\ py_decimal (u "_ 1") = None /\
  py_decimal (u "1 _") = None /\ py_decimal (u " 1_") = Some (DFin 1 0) /\
  py_decimal [28; 49; 28] = Some (DFin 1 0) /\ py_decimal [6113; 46; 6117] = Some (DFin 15 (-1)) /\
  py_decimal [9332] = None /\ py_decimal (u "1e1000000000000000000") = None /\
  py_decimal (u "1e999999999999999999") = Some (DFin 1 999999999999999999) /\
  py_decimal (u "0e-2000000000000000000") = None /\
  py_decimal (u "1e-1000000000000000029") = Some (DFin 1 (-1000000000000000029)).
Proof. vm_compute. repeat split. Qed.

(** Numerical comparison of two non-NaN decimals; [None] when a NaN is
    involved. *)
Definition dec_cmp (a b : Dec) : option comparison :=
  match a, b with
  | DNaN _, _ | _, DNaN _ => None
  | DFin c1 e1, DFin c2 e2 =>
      let m := Z.min e1 e2 in
      Some (Z.compare (c1 * 10 ^ (e1 - m)) (c2 * 10 ^ (e2 - m)))
  | DInf n1, DInf n2 =>
      Some (if Bool.eqb n1 n2 then Eq else if n1 then Lt else Gt)
  | DInf n, DFin _ _ => Some (if n then Lt else Gt)
  | DFin _ _, DInf n => Some (if n then Gt else Lt)
  end.

(** [a > b] and [a < b] on [Decimal]s: an ordering comparison involving a
    (quiet or signalling) NaN signals [InvalidOperation], which the default
    context traps, so it raises. *)
Definition py_gt (a b : Dec) : Exc + bool :=
  match dec_cmp a b with
  | Some c => inr (bool_decide (c = Gt))
  | None => inl InvalidOperation
  end.

Definition py_lt (a b : Dec) : Exc + bool :=
  match dec_cmp a b with
  | Some c => inr (bool_decide (c = Lt))
  | None => inl InvalidOperation
  end.

(** [clamp_bbo_with_last(last_str, bid_str, ask_str)]: the [try] only
    covers the three [Decimal] constructions; the comparisons are outside
    it. *)
Definition clamp_bbo_with_last (last_str bid_str ask_str : pystr)
  : Exc + (pystr * pystr * bool * bool) :=
  match py_decimal last_str, py_decimal bid_str, py_decimal ask_str with
  | Some d_last, Some d_bid, Some d_ask =>
      match py_gt d_bid d_last with
      | inl e => inl e
      | inr gt_b =>
          let '(bid_out, clamp_bid) := if gt_b then (last_str, true) else (bid_str, false) in
          match py_lt d_ask d_last with
          | inl e => inl e
          | inr lt_a =>
              let '(ask_out, clamp_ask) := if lt_a then (last_str, true) else (ask_str, false) in
              inr (bid_out, ask_out, clamp_bid, clamp_ask)
          end
      end
  | _, _, _ => inr (bid_str, ask_str, false, false)
  end.

(* ================================================================== *)
(** ** Processing the rows of one day file *)

(** The per-contract state dictionary [{"last", "bid", "ask"}]. *)
Record L1State := mkL1State {
  st_last : option pystr;
  st_bid : option pystr;
  st_ask : option pystr;
}.

Definition empty_l1 : L1State := mkL1State None None None.

(** The five counters returned by the per-file function. *)
Record Counters := mkCounters {
  total_lineas : nat;
  lineas_validas : nat;
  l1_total : nat;
  l1_trades_emitidos : nat;
  clamps_aplicados : nat;
}.

Definition zero_counters : Counters := mkCounters 0 0 0 0 0.

(** One emitted line: [fecha hora frac7;price;bid;ask;volume]. *)
Record Tick := mkTick {
  t_fecha : pystr; t_hora : pystr; t_frac7 : pystr;
  t_price : pystr; t_bid : pystr; t_ask : pystr; t_volume : pystr;
}.

Definition render_tick (t : Tick) : pystr :=
  t_fecha t ++ u " " ++ t_hora t ++ u " " ++ t_frac7 t ++ u ";" ++ t_price t ++
  u ";" ++ t_bid t ++ u ";" ++ t_ask t ++ u ";" ++ t_volume t ++ [10].

Definition set_bid (st : L1State) (p : pystr) : L1State := mkL1State (st_last st) (Some p) (st_ask st).
Definition set_ask (st : L1State) (p : pystr) : L1State := mkL1State (st_last st) (st_bid st) (Some p).
Definition set_last (st : L1State) (p : pystr) : L1State := mkL1State (Some p) (st_bid st) (st_ask st).

Definition inc_total (c : Counters) : Counters :=
  mkCounters (S (total_lineas c)) (lineas_validas c) (l1_total c) (l1_trades_emitidos c) (clamps_aplicados c).
Definition inc_validas (c : Counters) : Counters :=
  mkCounters (total_lineas c) (S (lineas_validas c)) (l1_total c) (l1_trades_emitidos c) (clamps_aplicados c).
Definition inc_l1 (c : Counters) : Counters :=
  mkCounters (total_lineas c) (lineas_validas c) (S (l1_total c)) (l1_trades_emitidos c) (clamps_aplicados c).
Definition inc_emitidos (c : Counters) : Counters :=
  mkCounters (total_lineas c) (lineas_validas c) (l1_total c) (S (l1_trades_emitidos c)) (clamps_aplicados c).
Definition inc_clamps (c : Counters) : Counters :=
  mkCounters (total_lineas c) (lineas_validas c) (l1_total c) (l1_trades_emitidos c) (S (clamps_aplicados c)).

(** The body of the [for campos in iter_csv_lineas(fin)] loop for one row:
    the updated state, the updated counters, and either the exception the
    row raised or the line it wrote (if any).  On an exception the state
    keeps the mutations made before the raise. *)
Definition row_step (st : L1State) (cnt : Counters) (campos : list pystr)
  : L1State * Counters * (Exc + option Tick) :=
  let cnt := inc_total cnt in
  match parse_line_fields campos with
  | None => (st, cnt, inr None)
  | Some (ts20, level, tipo, price_str, volume_str) =>
      let cnt := inc_validas cnt in
      if negb (level =? 1) then (st, cnt, inr None)
      else
        let cnt := inc_l1 cnt in
        let '(fecha, hora, frac7) := ts20_to_nt_parts ts20 in
        if tipo =? TYPE_BID then (set_bid st price_str, cnt, inr None)
        else if tipo =? TYPE_ASK then (set_ask st price_str, cnt, inr None)
        else if tipo =? TYPE_LAST then
          let st := set_last st price_str in
          match st_bid st, st_ask st with
          | Some b, Some a =>
              match clamp_bbo_with_last price_str b a with
              | inl e => (st, cnt, inl e)
              | inr (bid_out, ask_out, did_cb, did_ca) =>
                  let cnt := if did_cb || did_ca then inc_clamps cnt else cnt in
                  let cnt := inc_emitidos cnt in
                  (st, cnt, inr (Some (mkTick fecha hora frac7 price_str bid_out ask_out volume_str)))
              end
          | _, _ => (st, cnt, inr None)
          end
        else (st, cnt, inr None)
  end.

(** The loop over the rows: final state, lines written (in order), and the
    exception that ended the loop or the final counters. *)
Fixpoint rows_loop (st : L1State) (cnt : Counters) (rows : list (list pystr))
  : L1State * list Tick * (Exc + Counters) :=
  match rows with
  | [] => (st, [], inr cnt)
  | r :: rs =>
      match row_step st cnt r with
      | (st1, _, inl e) => (st1, [], inl e)
      | (st1, cnt1, inr ot) =>
          let '(st2, ts, res) := rows_loop st1 cnt1 rs in
          (st2, option_list ot ++ ts, res)
      end
  end.

(* ================================================================== *)
(** ** [csv.reader(fp, delimiter=';')] *)

(** The states of CPython's [_csv] parser that the dialect reaches (no
    escape character, [doublequote=True], [strict=False],
    [skipinitialspace=False]). *)
Inductive CsvState :=
| START_RECORD | START_FIELD | IN_FIELD | IN_QUOTED_FIELD
| QUOTE_IN_QUOTED_FIELD | EAT_CRNL.

Global Instance CsvState_eq_dec : EqDecision CsvState.
Proof. solve_decision. Defined.

Record CsvParser := mkParser {
  ps_state : CsvState;
  ps_fields : list pystr;
  ps_field : pystr;
}.

Definition parser_reset : CsvParser := mkParser START_RECORD [] [].

Definition field_limit : Z := 131072.
Definition DELIM : Z := 59.
Definition QUOTE : Z := 34.

Definition parse_save_field (p : CsvParser) (s : CsvState) : CsvParser :=
  mkParser s (ps_fields p ++ [ps_field p]) [].

(** [parse_add_char]: [None] is the "field larger than field limit" error. *)
Definition parse_add_char (p : CsvParser) (s : CsvState) (c : Z) : option CsvParser :=
  if field_limit <=? Z.of_nat (length (ps_field p)) then None
  else Some (mkParser s (ps_fields p) (ps_field p ++ [c])).

Definition is_nl (c : Z) : bool := (c =? 10) || (c =? 13).

(** [parse_process_char]; [None] for the character stands for the
    end-of-line marker [EOL] fed after each line. *)
Definition start_field (p : CsvParser) (c : option Z) : option CsvParser :=
  match c with
  | None => Some (parse_save_field p START_RECORD)
  | Some c =>
      if is_nl c then Some (parse_save_field p EAT_CRNL)
      else if c =? QUOTE then Some (mkParser IN_QUOTED_FIELD (ps_fields p) (ps_field p))
      else if c =? DELIM then Some (parse_save_field p START_FIELD)
      else parse_add_char p IN_FIELD c
  end.

Definition parse_process_char (p : CsvParser) (c : option Z) : option CsvParser :=
  match ps_state p with
  | START_RECORD =>
      match c with
      | None => Some p
      | Some c' => if is_nl c' then Some (mkParser EAT_CRNL (ps_fields p) (ps_field p))
                   else start_field p c
      end
  | START_FIELD => start_field p c
  | IN_FIELD =>
      match c with
      | None => Some (parse_save_field p START_RECORD)
      | Some c =>
          if is_nl c then Some (parse_save_field p EAT_CRNL)
          else if c =? DELIM then Some (parse_save_field p START_FIELD)
          else parse_add_char p IN_FIELD c
      end
  | IN_QUOTED_FIELD =>
      match c with
      | None => Some p
      | Some c =>
          if c =? QUOTE then Some (mkParser QUOTE_IN_QUOTED_FIELD (ps_fields p) (ps_field p))
          else parse_add_char p IN_QUOTED_FIELD c
      end
  | QUOTE_IN_QUOTED_FIELD =>
      match c with
      | None => Some (parse_save_field p START_RECORD)
      | Some c =>
          if c =? QUOTE then parse_add_char p IN_QUOTED_FIELD c
          else if c =? DELIM then Some (parse_save_field p START_FIELD)
          else if is_nl c then Some (parse_save_field p EAT_CRNL)
          else parse_add_char p IN_FIELD c
      end
  | EAT_CRNL =>
      match c with
      | None => Some (mkParser START_RECORD (ps_fields p) (ps_field p))
      | Some c => if is_nl c then Some p else None
      end
  end.

(** Feed one physical line, then [EOL]. *)
Definition process_line (p : CsvParser) (line : pystr) : option CsvParser :=
  match fold_left (fun acc c => match acc with
                                | Some q => parse_process_char q (Some c)
                                | None => None
                                end) line (Some p) with
  | Some q => parse_process_char q None
  | None => None
  end.

(** Lines of a file opened with [newline='']: split after [\n], [\r] and
    [\r\n], terminators kept, a last line without terminator kept. *)
Fixpoint split_lines (cur : pystr) (s : pystr) : list pystr :=
  match s with
  | [] => if bool_decide (cur = []) then [] else [cur]
  | 10 :: t => (cur ++ [10]) :: split_lines [] t
  | 13 :: 10 :: t => (cur ++ [13; 10]) :: split_lines [] t
  | 13 :: t => (cur ++ [13]) :: split_lines [] t
  | c :: t => split_lines (cur ++ [c]) t
  end.

(** Iterating the reader ([Reader_iternext]): the records read, in order,
    and the [csv.Error] that stopped the iteration, if any. *)
Fixpoint csv_records (p : CsvParser) (lines : list pystr) : list (list pystr) * option Exc :=
  match lines with
  | [] =>
      if negb (bool_decide (ps_field p = [])) || bool_decide (ps_state p = IN_QUOTED_FIELD)
      then ([ps_fields p ++ [ps_field p]], None)
      else ([], None)
  | l :: ls =>
      match process_line p l with
      | None => ([], Some CsvError)
      | Some q =>
          if bool_decide (ps_state q = START_RECORD)
          then let '(rs, e) := csv_records parser_reset ls in (ps_fields q :: rs, e)
          else csv_records q ls
      end
  end.

(** [iter_csv_lineas]: the reader's records with the empty ones dropped. *)
Definition iter_csv_lineas (text : pystr) : list (list pystr) * option Exc :=
  let '(rs, e) := csv_records parser_reset (split_lines [] text) in
  (List.filter (fun r => negb (bool_decide (r = []))) rs, e).

Example iter_csv_lineas_example :
  iter_csv_lineas (u "a;b" ++ [13; 10] ++ [10] ++ u "x;" ++ [34] ++ u "y;" ++ [10] ++ u "z" ++ [34; 34; 34])
  = ([[u "a"; u "b"]; [u "x"; u "y;" ++ [10] ++ u "z" ++ [34]]], None).
Proof. vm_compute. reflexivity. Qed.

(* ================================================================== *)
(** ** Dates ([datetime.date]) and the front contract *)

Record date := mkdate { year : Z; month : Z; day : Z }.

Definition is_leap (y : Z) : bool :=
  (y mod 4 =? 0) && (negb (y mod 100 =? 0) || (y mod 400 =? 0)).

Definition days_in_month (y m : Z) : Z :=
  if m =? 2 then (if is_leap y then 29 else 28)
  else if (m =? 4) || (m =? 6) || (m =? 9) || (m =? 11) then 30 else 31.

(** [MINYEAR <= year <= MAXYEAR], a month, a day of that month: what the
    [date] constructor accepts. *)
Definition valid_date (d : date) : Prop :=
  1 <= year d <= 9999 /\ 1 <= month d <= 12 /\ 1 <= day d <= days_in_month (year d) (month d).

Definition valid_dateb (d : date) : bool :=
  (1 <=? year d) && (year d <=? 9999) && (1 <=? month d) && (month d <=? 12) &&
  (1 <=? day d) && (day d <=? days_in_month (year d) (month d)).

(** [date(year, month, day)] on [int]s that fit a C [int]: the
    constructor's checks, in order, with their messages. *)
Definition py_date (y m d : Z) : Exc + date :=
  if negb ((1 <=? y) && (y <=? 9999)) then inl (ValueError (u "year " ++ z_str y ++ u " is out of range"))
  else if negb ((1 <=? m) && (m <=? 12)) then inl (ValueError (u "month must be in 1..12"))
  else if negb ((1 <=? d) && (d <=? days_in_month y m)) then inl (ValueError (u "day is out of range for month"))
  else inr (mkdate y m d).

Definition days_before_year (y : Z) : Z :=
  let y := y - 1 in y * 365 + y / 4 - y / 100 + y / 400.

Definition days_before_month (y m : Z) : Z :=
  nth (Z.to_nat m) [0; 0; 31; 59; 90; 120; 151; 181; 212; 243; 273; 304; 334] 0 +
  (if (m >? 2) && is_leap y then 1 else 0).

(** [date.toordinal()]: 1 for 0001-01-01. *)
Definition toordinal (d : date) : Z :=
  days_before_year (year d) + days_before_month (year d) (month d) + day d.

(** [date.weekday()]: Monday is 0, Friday is 4. *)
Definition weekday (d : date) : Z := (toordinal d + 6) mod 7.

Definition next_day (d : date) : date :=
  if day d <? days_in_month (year d) (month d) then mkdate (year d) (month d) (day d + 1)
  else if month d <? 12 then mkdate (year d) (month d + 1) 1
  else mkdate (year d + 1) 1 1.

Definition prev_day (d : date) : date :=
  if 1 <? day d then mkdate (year d) (month d) (day d - 1)
  else if 1 <? month d then mkdate (year d) (month d - 1) (days_in_month (year d) (month d - 1))
  else mkdate (year d - 1) 12 31.

(** [d + timedelta(days=n)] for [n >= 0]: the date [n] days later. *)
Definition add_days (d : date) (n : Z) : date := Nat.iter (Z.to_nat n) next_day d.

(** [d1 < d2]: dates compare as [(year, month, day)]. *)
Definition date_lt (a b : date) : bool :=
  (year a <? year b) ||
  ((year a =? year b) && ((month a <? month b) || ((month a =? month b) && (day a <? day b)))).

Definition second_friday (year month : Z) : date :=
  let d0 := mkdate year month 1 in
  let offset := (4 - weekday d0) mod 7 in
  let first_friday := add_days d0 offset in
  add_days first_friday 7.

Definition front_contract_for_date (d : date) : Z * Z :=
  let r_mar := second_friday (year d) 3 in
  let r_jun := second_friday (year d) 6 in
  let r_sep := second_friday (year d) 9 in
  let r_dec := second_friday (year d) 12 in
  if date_lt d r_mar then (3, year d)
  else if date_lt d r_jun then (6, year d)
  else if date_lt d r_sep then (9, year d)
  else if date_lt d r_dec then (12, year d)
  else (3, year d + 1).

Example second_friday_2024 :
  second_friday 2024 3 = mkdate 2024 3 8 /\ second_friday 2024 6 = mkdate 2024 6 14 /\
  second_friday 2024 9 = mkdate 2024 9 13 /\ second_friday 2024 12 = mkdate 2024 12 13 /\
  weekday (mkdate 2024 1 1) = 0.
Proof. vm_compute. repeat split. Qed.

(* ================================================================== *)
(** ** Inference from paths *)

(** A resolved path, as the list of its components ([/a/b/c.csv] is
    [[a; b; c.csv]]). *)
Abbreviation path := (list pystr).

(** [PurePath.name] and [PurePath.parent] ([/] is its own parent and has
    the empty name). *)
Definition path_name (p : path) : pystr := default [] (last p).
Definition path_parent (p : path) : path := removelast p.

Definition is_alnum_ascii (c : Z) : bool :=
  ((48 <=? c) && (c <=? 57)) || ((65 <=? c) && (c <=? 90)) || ((97 <=? c) && (c <=? 122)).

(** [_RE_FOLDER.match(name)], [_RE_FOLDER = ^([A-Za-z0-9]+)_T[12]_\d{6}$],
    returning [group(1)].  The greedy [[A-Za-z0-9]+] never backtracks: the
    character after it must be [_], which the class excludes.  [\d] is
    Python's Unicode decimal digit, and [$] (no MULTILINE) matches at the
    end or before a final newline. *)
Definition folder_match (name : pystr) : option pystr :=
  let sym := take_while is_alnum_ascii name in
  if bool_decide (sym = []) then None
  else
    match skipn (length sym) name with
    | 95 :: 84 :: t :: 95 :: tl =>
        let ds := firstn 6 tl in
        if ((t =? 49) || (t =? 50)) && bool_decide (length ds = 6%nat) &&
           forallb is_decimal ds &&
           (bool_decide (skipn 6 tl = []) || bool_decide (skipn 6 tl = [10]))
        then Some sym else None
    | _ => None
    end.

(** [_RE_FILE_DATE.match(name)], [_RE_FILE_DATE = ^(\d{8})\.csv$],
    returning [group(1)]. *)
Definition file_date_match (name : pystr) : option pystr :=
  let ds := firstn 8 name in
  if bool_decide (length ds = 8%nat) && forallb is_decimal ds &&
     (bool_decide (skipn 8 name = u ".csv") || bool_decide (skipn 8 name = u ".csv" ++ [10]))
  then Some ds else None.

(** The loop [for p in (csv_path.parent, csv_path.parent.parent)]. *)
Fixpoint first_folder_match (ps : list path) : option pystr :=
  match ps with
  | [] => None
  | p :: rest =>
      match folder_match (path_name p) with
      | Some m => Some m
      | None => first_folder_match rest
      end
  end.

(** [str(csv_path)] of an absolute path. *)
Definition path_str (p : path) : pystr :=
  match p with
  | [] => u "/"
  | _ => concat (map (fun c => 47 :: c) p)
  end.

(** The error [infer_symbol_from_path] raises ('\u00ed' is 237). *)
Definition symbol_error (csv_path : path) : Exc :=
  ValueError (u "No se pudo inferir el s" ++ [237] ++ u "mbolo desde '" ++ path_str csv_path ++
              u "'. Usa --symbol para indicarlo manualmente.").

(** [infer_symbol_from_path]: [if forced_symbol:] is Python truthiness, so
    an empty override counts as absent. *)
Definition infer_symbol_from_path (csv_path : path) (forced_symbol : option pystr) : Exc + pystr :=
  let search :=
    match first_folder_match [path_parent csv_path; path_parent (path_parent csv_path)] with
    | Some m => inr m
    | None => inl (symbol_error csv_path)
    end in
  match forced_symbol with
  | Some s => if bool_decide (s = []) then search else inr s
  | None => search
  end.

(** The error [infer_trade_date_from_filename] raises on a file name that
    does not match ('\u00e1' is 225). *)
Definition date_name_error (name : pystr) : Exc :=
  ValueError (u "Nombre inv" ++ [225] ++ u "lido (debe ser 'YYYYMMDD.csv'): '" ++ name ++ u "'").

(** [int(s)] as a computation that raises.  The message shows [repr(s)];
    the slices this is applied to are decimal digits, for which [int()]
    does not fail (see [infer_trade_date_digits]). *)
Definition int_or_raise (s : pystr) : Exc + Z :=
  match py_int s with
  | Some n => inr n
  | None => inl (ValueError (u "invalid literal for int() with base 10: '" ++ s ++ u "'"))
  end.

(** [infer_trade_date_from_filename]: [date(int(...), int(...), int(...))]. *)
Definition infer_trade_date_from_filename (csv_path : path) : Exc + date :=
  match file_date_match (path_name csv_path) with
  | None => inl (date_name_error (path_name csv_path))
  | Some yyyymmdd =>
      match int_or_raise (slice 0 4 yyyymmdd) with
      | inl e => inl e
      | inr y =>
          match int_or_raise (slice 4 6 yyyymmdd) with
          | inl e => inl e
          | inr m =>
              match int_or_raise (slice 6 8 yyyymmdd) with
              | inl e => inl e
              | inr d => py_date y m d
              end
          end
      end
  end.

(* ================================================================== *)
(** ** Contracts and output files *)

Record ContractKey := mkContractKey {
  ck_symbol : pystr;
  ck_month : Z;
  ck_year : Z;
}.

Global Instance ContractKey_eq_dec : EqDecision ContractKey.
Proof. solve_decision. Defined.

Global Instance ContractKey_countable : Countable ContractKey.
Proof.
  apply (inj_countable' (fun k => (ck_symbol k, ck_month k, ck_year k))
                        (fun '(s, m, y) => mkContractKey s m y)).
  by intros [].
Defined.

(** [f"{n:02d}"]: sign, then the digits zero-padded to a width of 2. *)
Definition fmt02d (n : Z) : pystr :=
  let ds := z_digits (Z.abs n) in
  let sgn := if n <? 0 then u "-" else [] in
  sgn ++ repeat 48 (2 - length sgn - length ds) ++ ds.

(** [ContractKey.label]: [f"{month:02d}-{year % 100:02d}"]. *)
Definition label (ck : ContractKey) : pystr :=
  fmt02d (ck_month ck) ++ u "-" ++ fmt02d (ck_year ck mod 100).

(** [ContractKey.outfile]: the file name inside the output directory. *)
Definition outfile (ck : ContractKey) : pystr :=
  ck_symbol ck ++ u " " ++ label ck ++ u ".Last.txt".

Example outfile_es : outfile (mkContractKey (u "ES") 3 2024) = u "ES 03-24.Last.txt".
Proof. vm_compute. reflexivity. Qed.

(* ================================================================== *)
(** ** The run's mutable state *)

(** [w_handles] and [w_state] are the two dictionaries of
    [ContractWriters]; [w_disk] the contents of the files of the output
    directory; [w_closed] the contracts whose handle has been flushed and
    closed.  Writes through a handle are appended to its file in program
    order (buffering is not modelled). *)
Record World := mkWorld {
  w_handles : gset ContractKey;
  w_state : gmap ContractKey L1State;
  w_disk : gmap pystr pystr;
  w_closed : gset ContractKey;
}.

(** State-and-exception monad: an exception keeps the world as it was at
    the raise, as Python keeps mutations made before it. *)
Definition M (A : Type) : Type := World -> World * (Exc + A).

Global Instance M_ret : MRet M := fun A a w => (w, inr a).
Global Instance M_bind : MBind M := fun A B f m w =>
  match m w with
  | (w', inl e) => (w', inl e)
  | (w', inr a) => f a w'
  end.

Definition raise {A} (e : Exc) : M A := fun w => (w, inl e).
Definition lift {A} (r : Exc + A) : M A := fun w => (w, r).
Definition modify (f : World -> World) : M unit := fun w => (f w, inr ()).
Definition gets {A} (f : World -> A) : M A := fun w => (w, inr (f w)).

(** [try: body except Exception as e: handler(e)]. *)
Definition try_except {A} (body : M A) (handler : Exc -> M A) : M A := fun w =>
  match body w with
  | (w', inl e) => handler e w'
  | (w', inr a) => (w', inr a)
  end.

Definition append_file (name : pystr) (txt : pystr) (d : gmap pystr pystr) : gmap pystr pystr :=
  <[name := default [] (d !! name) ++ txt]> d.

(** [ContractWriters.get_writer]: open [outfile] in append mode (creating
    it) the first time the contract is seen. *)
Definition get_writer (ck : ContractKey) : M unit :=
  modify (fun w =>
    if bool_decide (ck ∈ w_handles w) then w
    else mkWorld ({[ck]} ∪ w_handles w) (w_state w)
                 (append_file (outfile ck) [] (w_disk w)) (w_closed w)).

(** [ContractWriters.get_state]: the stored state, a fresh empty one
    inserted on first use. *)
Definition get_state (ck : ContractKey) : M L1State := fun w =>
  match w_state w !! ck with
  | Some st => (w, inr st)
  | None => (mkWorld (w_handles w) (<[ck := empty_l1]> (w_state w)) (w_disk w) (w_closed w),
             inr empty_l1)
  end.

(** [ContractWriters.close]: flush and close every handle, clear both
    dictionaries. *)
Definition close (w : World) : World :=
  mkWorld ∅ ∅ (w_disk w) (w_handles w ∪ w_closed w).

(* ================================================================== *)
(** ** Processing one day file, and the driver *)

(** *** Reading a day file

    [csv_path.open('r', newline='', encoding='utf-8')] reads lazily: each
    time the reader needs text, [read1] returns the next chunk of bytes,
    which a strict incremental UTF-8 decoder and an
    [IncrementalNewlineDecoder] (which, with [newline=''], only holds a
    final [\r] back until the next chunk) turn into text.  A chunk that is
    not valid UTF-8 raises [UnicodeDecodeError] with no text from it; the
    lines completed before are read first. *)

(** The bytes [read1] returns, in order; an empty chunk is the end of the
    file.  If the list ends without an empty chunk, the next [read1]
    raises [OSError] when [fd_read_error] holds (and the file ends
    otherwise). *)
Record FileData := mkFileData {
  fd_chunks : list (list Z);
  fd_read_error : bool;
}.

(** A discovered CSV path, and the file's bytes ([None]: [open] raises
    [OSError]). *)
Record InputFile := mkInputFile {
  fi_path : path;
  fi_data : option FileData;
}.

(** The strict UTF-8 decoder's state: the number of continuation bytes
    still expected, the range allowed for the next one, and the bits of
    the code point so far. *)
Record U8State := mkU8 { u8_need : nat; u8_lo : Z; u8_hi : Z; u8_acc : Z }.

Definition u8_start : U8State := mkU8 0 128 191 0.

(** One byte: the well-formed sequences of the Unicode standard
    (Table 3-7), which CPython's decoder accepts, and nothing else. *)
Definition u8_step (s : U8State) (b : Z) : option (U8State * option Z) :=
  match u8_need s with
  | O =>
      if b <? 128 then Some (u8_start, Some b)
      else if (194 <=? b) && (b <=? 223) then Some (mkU8 1 128 191 (b - 192), None)
      else if b =? 224 then Some (mkU8 2 160 191 (b - 224), None)
      else if b =? 237 then Some (mkU8 2 128 159 (b - 224), None)
      else if (225 <=? b) && (b <=? 239) then Some (mkU8 2 128 191 (b - 224), None)
      else if b =? 240 then Some (mkU8 3 144 191 (b - 240), None)
      else if b =? 244 then Some (mkU8 3 128 143 (b - 240), None)
      else if (241 <=? b) && (b <=? 243) then Some (mkU8 3 128 191 (b - 240), None)
      else None
  | S n =>
      if (u8_lo s <=? b) && (b <=? u8_hi s) then
        let acc := u8_acc s * 64 + (b - 128) in
        match n with
        | O => Some (u8_start, Some acc)
        | _ => Some (mkU8 n 128 191 acc, None)
        end
      else None
  end.

(** Decode bytes from a state: the new state (an incomplete sequence at
    the end is kept in it) and the characters; [None] on invalid bytes. *)
Fixpoint u8_decode (s : U8State) (bs : list Z) : option (U8State * pystr) :=
  match bs with
  | [] => Some (s, [])
  | b :: r =>
      match u8_step s b with
      | None => None
      | Some (s1, oc) =>
          match u8_decode s1 r with
          | None => None
          | Some (s2, t) => Some (s2, option_list oc ++ t)
          end
      end
  end.

(** [IncrementalNewlineDecoder.decode(output, final)] with
    [translate=False]: a pending [\r] goes in front of a non-empty output
    (or at the end of the file); a final [\r] is held back unless [final]. *)
Definition nl_decode (cr : bool) (out : pystr) (final : bool) : pystr * bool :=
  let '(out, cr) := if cr && (final || negb (bool_decide (out = []))) then (13 :: out, false)
                    else (out, cr) in
  if negb final && bool_decide (last out = Some 13) then (removelast out, true) else (out, cr).

(** At the end of the file: [decode(b'', final=True)]. *)
Definition u8_final (s : U8State) (cr : bool) : pystr * option Exc :=
  match u8_need s with
  | O => (fst (nl_decode cr [] true), None)
  | S _ => ([], Some UnicodeDecodeError)
  end.

(** All the text the file yields, and the exception raised when the next
    chunk is read after it, if any. *)
Fixpoint read_text (s : U8State) (cr : bool) (chunks : list (list Z)) (rerr : bool)
  : pystr * option Exc :=
  match chunks with
  | [] => if rerr then ([], Some OSError) else u8_final s cr
  | [] :: _ => u8_final s cr
  | c :: cs =>
      match u8_decode s c with
      | None => ([], Some UnicodeDecodeError)
      | Some (s1, out) =>
          let '(out1, cr1) := nl_decode cr out false in
          let '(t, e) := read_text s1 cr1 cs rerr in
          (out1 ++ t, e)
      end
  end.

(** [Reader_iternext] when reading stops with an exception: the records
    of the lines read, then the exception (a [csv.Error] first if one
    comes earlier); there is no end-of-file flush. *)
Fixpoint csv_records_until (p : CsvParser) (lines : list pystr) (e : Exc)
  : list (list pystr) * option Exc :=
  match lines with
  | [] => ([], Some e)
  | l :: ls =>
      match process_line p l with
      | None => ([], Some CsvError)
      | Some q =>
          if bool_decide (ps_state q = START_RECORD)
          then let '(rs, e') := csv_records_until parser_reset ls e in (ps_fields q :: rs, e')
          else csv_records_until q ls e
      end
  end.

(** A line [readline] returns before the stream fails: one with its
    terminator. *)
Definition line_complete (l : pystr) : bool :=
  match last l with
  | Some c => is_nl c
  | None => false
  end.

(** [iter_csv_lineas(fin)] on the opened file: its records and the
    exception that ends the iteration, if any. *)
Definition read_csv (d : FileData) : list (list pystr) * option Exc :=
  let '(t, err) := read_text u8_start false (fd_chunks d) (fd_read_error d) in
  match err with
  | None => iter_csv_lineas t
  | Some e =>
      let '(rs, e') := csv_records_until parser_reset
                         (List.filter line_complete (split_lines [] t)) e in
      (List.filter (fun r => negb (bool_decide (r = []))) rs, e')
  end.

(** *** Standard output

    [print] encodes its text for the standard output.  A stream is given
    by the non-ASCII code points its encoding, with its error handler,
    can write; every such encoding writes ASCII.  Only whether a [print]
    raises is modelled, not what it writes. *)
Definition Stdout := Z -> bool.

(** UTF-8 with the ['strict'] handler (stdout in a UTF-8 locale when
    Python is not in UTF-8 mode): lone surrogates, which is how the bytes
    of a file name that are not UTF-8 reach Python, cannot be written. *)
Definition utf8_strict : Stdout := fun c => negb ((55296 <=? c) && (c <=? 57343)).

(** UTF-8 with ['surrogateescape'] (Python's UTF-8 mode): the surrogates
    U+DC80..U+DCFF are written back as the bytes they stand for. *)
Definition utf8_surrogateescape : Stdout :=
  fun c => utf8_strict c || ((56448 <=? c) && (c <=? 56575)).

Definition printable (out : Stdout) (text : pystr) : bool :=
  forallb (fun c => (c <? 128) || out c) text.

(** [print(text)]. *)
Definition py_print (out : Stdout) (text : pystr) : M unit :=
  if printable out text then mret () else raise UnicodeEncodeError.

(** *** Processing one file *)

(** The [OK] line printed after a file ('í' is 237, 'á' 225). *)
Definition ok_line (name : pystr) (ck : ContractKey) (c : Counters) : pystr :=
  u "[OK] " ++ name ++ u " -> " ++ ck_symbol ck ++ u " " ++ label ck ++ u " .Last(TickReplay) | " ++
  u "l" ++ [237] ++ u "neas=" ++ nat_str (total_lineas c) ++
  u ", v" ++ [225] ++ u "lidas=" ++ nat_str (lineas_validas c) ++
  u ", L1=" ++ nat_str (l1_total c) ++
  u ", trades_emitidos=" ++ nat_str (l1_trades_emitidos c) ++
  u ", clamps=" ++ nat_str (clamps_aplicados c).

(** [export_csv_day_to_contract_last_allformat].  The row loop works on the
    dictionary returned by [get_state], which is the one stored in
    [w_state]; storing the final state back after the loop is the same
    since nothing else reads the dictionary meanwhile.  The reader is lazy:
    the rows before an exception of the reader are processed, then it
    raises. *)
Definition export_csv_day_to_contract_last_allformat
    (out : Stdout) (f : InputFile) (forced_symbol : option pystr) : M Counters :=
  symbol ← lift (infer_symbol_from_path (fi_path f) forced_symbol);
  trading_day ← lift (infer_trade_date_from_filename (fi_path f));
  let '(c_month, c_year) := front_contract_for_date trading_day in
  let ck := mkContractKey symbol c_month c_year in
  get_writer ck ;;
  st ← get_state ck;
  d ← lift (match fi_data f with Some d => inr d | None => inl OSError end);
  let '(rows, csv_err) := read_csv d in
  let '(st', ticks, res) := rows_loop st zero_counters rows in
  modify (fun w => mkWorld (w_handles w) (<[ck := st']> (w_state w))
                           (append_file (outfile ck) (concat (map render_tick ticks)) (w_disk w))
                           (w_closed w)) ;;
  match res with
  | inl e => raise e
  | inr cnt =>
      match csv_err with
      | Some e => raise e
      | None => py_print out (ok_line (path_name (fi_path f)) ck cnt) ;; mret cnt
      end
  end.

Definition add_counters (a b : Counters) : Counters :=
  mkCounters (total_lineas a + total_lineas b) (lineas_validas a + lineas_validas b)
             (l1_total a + l1_total b) (l1_trades_emitidos a + l1_trades_emitidos b)
             (clamps_aplicados a + clamps_aplicados b).

(** What [main] prints for a file: the [OK] line or the [WARN] line. *)
Inductive FileReport :=
| Processed (c : Counters)
| Skipped (e : Exc).

(** [main]'s accumulators. *)
Record Summary := mkSummary {
  total_archivos : nat;
  totals : Counters;
  reports : list FileReport;
}.

Definition zero_summary : Summary := mkSummary 0 zero_counters [].

(** The part of [str(e)] that can hold non-ASCII characters: the message
    of a [ValueError].  The other messages are ASCII, but for the [repr]
    of the path in the message of an [OSError] raised by [open], whose
    non-ASCII characters are characters of the path, which the [WARN]
    line shows anyway. *)
Definition exc_text (e : Exc) : pystr :=
  match e with
  | ValueError msg => msg
  | _ => []
  end.

(** [f"[WARN] Saltando '{csv_path}': {e}"], up to its ASCII parts. *)
Definition warn_line (f : InputFile) (e : Exc) : pystr :=
  u "[WARN] Saltando '" ++ path_str (fi_path f) ++ u "': " ++ exc_text e.

(** The [for csv_path in csv_paths: try ... except Exception] loop; the
    handler's [print] is outside the [try]. *)
Fixpoint main_loop (out : Stdout) (forced_symbol : option pystr) (files : list InputFile)
    (s : Summary) : M Summary :=
  match files with
  | [] => mret s
  | f :: fs =>
      let s := mkSummary (S (total_archivos s)) (totals s) (reports s) in
      s' ← try_except
             (c ← export_csv_day_to_contract_last_allformat out f forced_symbol;
              mret (mkSummary (total_archivos s) (add_counters (totals s) c)
                              (reports s ++ [Processed c])))
             (fun e => py_print out (warn_line f e) ;;
                       mret (mkSummary (total_archivos s) (totals s) (reports s ++ [Skipped e])));
      main_loop out forced_symbol fs s'
  end.

(** [with ContractWriters() as writers: body]: [__exit__] closes the
    writers on every exit path and lets an exception through. *)
Definition with_writers {A} (body : M A) : M A := fun w =>
  let '(w', r) := body (mkWorld ∅ ∅ (w_disk w) (w_closed w)) in (close w', r).

Definition info_line : pystr := u "[INFO] No se encontraron CSVs para procesar.".

(** The final summary ('í' is 237, 'á' 225). *)
Definition summary_text (s : Summary) : pystr :=
  [10] ++ u "==== RESUMEN ====" ++ [10] ++
  u "CSV procesados          : " ++ nat_str (total_archivos s) ++ [10] ++
  u "L" ++ [237] ++ u "neas totales          : " ++ nat_str (total_lineas (totals s)) ++ [10] ++
  u "L" ++ [237] ++ u "neas v" ++ [225] ++ u "lidas          : " ++
    nat_str (lineas_validas (totals s)) ++ [10] ++
  u "L1 total                : " ++ nat_str (l1_total (totals s)) ++ [10] ++
  u "Trades emitidos (.Last) : " ++ nat_str (l1_trades_emitidos (totals s)) ++ [10] ++
  u "Clamps (ajustes BBO)    : " ++ nat_str (clamps_aplicados (totals s)).

(** [main] after discovery, on the standard output, the discovered files
    and the output directory's contents: an empty list prints the [INFO]
    line and returns before any writer exists; otherwise the loop runs
    inside the [with] block and the summary is printed after it. *)
Definition run_main (out : Stdout) (forced_symbol : option pystr) (files : list InputFile)
    (disk : gmap pystr pystr) : World * (Exc + Summary) :=
  let w0 := mkWorld ∅ ∅ disk ∅ in
  match files with
  | [] => (py_print out info_line ;; mret zero_summary) w0
  | _ => (s ← with_writers (main_loop out forced_symbol files zero_summary);
          py_print out (summary_text s) ;; mret s) w0
  end.

(* ================================================================== *)
(** * Specification *)

(** ** The example day file of the specification *)

Definition es_text : pystr :=
  u "20240101093000123456;1;0;5000.00;10" ++ [10] ++
  u "20240101093000223456;1;1;5000.25;7" ++ [10] ++
  u "20240101093000323456;1;2;5000.50;3" ++ [10].

(** The example file, its UTF-8 bytes (ASCII here) read in one chunk. *)
Definition es_file : InputFile :=
  mkInputFile [u "data"; u "ES_T2_202401"; u "20240101.csv"] (Some (mkFileData [es_text] false)).

(** The line the specification expects in [ES 03-24.Last.txt]. *)
Definition es_expected_line : pystr :=
  u "20240101 093000 3234560;5000.50;5000.00;5000.25;3" ++ [10].

(** The line the program writes: the ask 5000.25 is below the trade 5000.50,
    so the ask is raised to the trade price. *)
Definition es_written_line : pystr :=
  u "20240101 093000 3234560;5000.50;5000.00;5000.50;3" ++ [10].

(** C2 (counterexample): on the example file the program does not write the
    expected line, and the ask is clamped. *)
Lemma c2_expected_line_not_written :
  let '(w, _) := run_main utf8_strict None [es_file] ∅ in
  w_disk w !! u "ES 03-24.Last.txt" <> Some es_expected_line /\
  clamp_bbo_with_last (u "5000.50") (u "5000.00") (u "5000.25")
  = inr (u "5000.00", u "5000.50", false, true).
Proof. vm_compute. split; [congruence | reflexivity]. Qed.

(** C2: processing the single file [20240101.csv] of [ES_T2_202401] with
    the three example lines writes exactly one record, to
    [ES 03-24.Last.txt]: [20240101 093000 3234560;5000.50;5000.00;5000.50;3]
    and a newline; the bid is not clamped, the ask is clamped to the trade
    price, and the clamp counter is 1 (the standard output is UTF-8). *)
Theorem c2_example_file_output :
  let '(w, r) := run_main utf8_strict None [es_file] ∅ in
  w_disk w = {[ u "ES 03-24.Last.txt" := es_written_line ]} /\
  r = inr (mkSummary 1 (mkCounters 3 3 3 1 1) [Processed (mkCounters 3 3 3 1 1)]) /\
  clamp_bbo_with_last (u "5000.50") (u "5000.00") (u "5000.25")
  = inr (u "5000.00", u "5000.50", false, true).
Proof. vm_compute. split; [|split]; reflexivity. Qed.

(** ** Row parsing and the level filter *)

Lemma parse_line_fields_iff (campos : list pystr) r :
  parse_line_fields campos = Some r <->
  (length campos = 5%nat \/ length campos = 7%nat) /\
  length (strip (nth 0 campos [])) = 20%nat /\
  forallb is_digit_char (strip (nth 0 campos [])) = true /\
  exists level tipo,
    py_int (nth 1 campos []) = Some level /\ py_int (nth 2 campos []) = Some tipo /\
    r = (strip (nth 0 campos []), level, tipo, strip (nth 3 campos []), strip (nth 4 campos [])).
Proof.
  unfold parse_line_fields, py_isdigit.
  set (ts := strip (nth 0 campos [])).
  split.
  - intros H.
    destruct (bool_decide (length campos = 5%nat) || bool_decide (length campos = 7%nat)) eqn:Hlen;
      simpl in H; [|discriminate].
    destruct (bool_decide (length ts = 20%nat)) eqn:H20; simpl in H; [|discriminate].
    destruct (bool_decide (ts = [])) eqn:Hnil; simpl in H; [discriminate|].
    destruct (forallb is_digit_char ts) eqn:Hdig; simpl in H; [|discriminate].
    destruct (py_int (nth 1 campos [])) as [lv|] eqn:H1; [|discriminate].
    destruct (py_int (nth 2 campos [])) as [ty|] eqn:H2; [|discriminate].
    injection H as <-.
    apply orb_true_iff in Hlen. rewrite !bool_decide_eq_true in Hlen.
    apply bool_decide_eq_true in H20.
    repeat split; eauto.
  - intros (Hlen & H20 & Hdig & lv & ty & H1 & H2 & ->).
    assert (Hl : bool_decide (length campos = 5%nat) || bool_decide (length campos = 7%nat) = true).
    { apply orb_true_iff. rewrite !bool_decide_eq_true. exact Hlen. }
    rewrite Hl. simpl.
    rewrite (bool_decide_eq_true_2 _ H20), Hdig. simpl.
    assert (Hne : bool_decide (ts = []) = false).
    { apply bool_decide_eq_false. intros E. rewrite E in H20. discriminate. }
    rewrite Hne. simpl. rewrite H1, H2. reflexivity.
Qed.

(** C5 (code bug): [parse_line_fields] decodes a row whose timestamp is
    twenty ARABIC-INDIC DIGIT ZERO characters (U+0660), although none of
    them is an ASCII digit: [str.isdigit] accepts any Unicode digit, while
    the 20-digit timestamp format asks for ASCII digits. *)
Lemma c5_non_ascii_timestamp_accepted :
  parse_line_fields [repeat 1632 20; u "1"; u "2"; u "5000.50"; u "3"]
  = Some (repeat 1632 20, 1, 2, u "5000.50", u "3") /\
  forallb is_ascii_digit (repeat 1632 20) = false.
Proof. vm_compute. split; reflexivity. Qed.

Lemma row_step_parsed st cnt campos ts20 level tipo price_str volume_str :
  parse_line_fields campos = Some (ts20, level, tipo, price_str, volume_str) ->
  row_step st cnt campos =
    (let cnt := inc_validas (inc_total cnt) in
     if negb (level =? 1) then (st, cnt, inr None)
     else
       let cnt := inc_l1 cnt in
       let '(fecha, hora, frac7) := ts20_to_nt_parts ts20 in
       if tipo =? TYPE_BID then (set_bid st price_str, cnt, inr None)
       else if tipo =? TYPE_ASK then (set_ask st price_str, cnt, inr None)
       else if tipo =? TYPE_LAST then
         let st := set_last st price_str in
         match st_bid st, st_ask st with
         | Some b, Some a =>
             match clamp_bbo_with_last price_str b a with
             | inl e => (st, cnt, inl e)
             | inr (bid_out, ask_out, did_cb, did_ca) =>
                 let cnt := if did_cb || did_ca then inc_clamps cnt else cnt in
                 let cnt := inc_emitidos cnt in
                 (st, cnt, inr (Some (mkTick fecha hora frac7 price_str bid_out ask_out volume_str)))
             end
         | _, _ => (st, cnt, inr None)
         end
       else (st, cnt, inr None)).
Proof. intros H. unfold row_step. rewrite H. reflexivity. Qed.

Lemma parse_line_fields_drop_extra (r5 : list pystr) (a b : pystr) :
  length r5 = 5%nat -> parse_line_fields (r5 ++ [a; b]) = parse_line_fields r5.
Proof.
  intros H. destruct r5 as [|c0 [|c1 [|c2 [|c3 [|c4 [|]]]]]]; simpl in H; try lia.
  reflexivity.
Qed.

(** C10: a 7-field row is processed exactly as its first five fields (the
    two trailing fields are ignored, whatever the level); a row that parses
    with a level other than 1 only increments the total and valid counters:
    no state change and no line written. *)
Theorem c10_level_filter :
  (forall (st : L1State) (cnt : Counters) (r5 : list pystr) (a b : pystr),
     length r5 = 5%nat -> row_step st cnt (r5 ++ [a; b]) = row_step st cnt r5) /\
  (forall (st : L1State) (cnt : Counters) (campos : list pystr) ts level tipo p v,
     parse_line_fields campos = Some (ts, level, tipo, p, v) -> level <> 1 ->
     row_step st cnt campos = (st, inc_validas (inc_total cnt), inr None)).
Proof.
  split.
  - intros st cnt r5 a b H. unfold row_step. rewrite parse_line_fields_drop_extra by exact H.
    reflexivity.
  - intros st cnt campos ts level tipo p v Hp Hl.
    rewrite (row_step_parsed _ _ _ _ _ _ _ _ Hp).
    destruct (Z.eqb_spec level 1); [contradiction|]. reflexivity.
Qed.

Lemma c10_level_filter_witness :
  row_step empty_l1 zero_counters
    ([u "20240101093000123456"; u "1"; u "0"; u "5000.00"; u "10"] ++ [u "a"; u "b"])
  = row_step empty_l1 zero_counters [u "20240101093000123456"; u "1"; u "0"; u "5000.00"; u "10"] /\
  row_step empty_l1 zero_counters [u "20240101093000123456"; u "2"; u "0"; u "5000.00"; u "10"; u "0"; u "1"]
  = (empty_l1, inc_validas (inc_total zero_counters), inr None).
Proof.
  split.
  - apply (proj1 c10_level_filter). reflexivity.
  - apply (proj2 c10_level_filter _ _ _ (u "20240101093000123456") 2 0 (u "5000.00") (u "10")).
    + vm_compute. reflexivity.
    + lia.
Defined.

(** ** Prices that are not decimals *)

Lemma clamp_fallback p b a :
  py_decimal p = None \/ py_decimal b = None \/ py_decimal a = None ->
  clamp_bbo_with_last p b a = inr (b, a, false, false).
Proof.
  intros H. unfold clamp_bbo_with_last.
  destruct H as [H|[H|H]]; rewrite H;
    repeat match goal with |- context [match ?x with _ => _ end] => destruct x end;
    reflexivity.
Qed.

Lemma row_step_bid_above_trade :
  row_step (mkL1State None (Some (u "5000.00")) (Some (u "abc"))) zero_counters
           [u "20240101093000323456"; u "1"; u "2"; u "4999.00"; u "3"]
  = (mkL1State (Some (u "4999.00")) (Some (u "5000.00")) (Some (u "abc")),
     mkCounters 1 1 1 1 0,
     inr (Some (mkTick (u "20240101") (u "093000") (u "3234560") (u "4999.00")
                       (u "5000.00") (u "abc") (u "3")))).
Proof. vm_compute. reflexivity. Qed.

(** C9: the parser accepts any price and volume text (both only stripped);
    a trade whose price, stored bid or stored ask is not a decimal is still
    written, with the stored bid and ask unchanged; and such a line can
    have a bid above its price (stored bid 5000.00, stored ask [abc],
    trade at 4999.00). *)
Theorem c9_non_decimal_prices_pass_through :
  (forall c0 c1 c2 p v level tipo,
     length (strip c0) = 20%nat -> forallb is_digit_char (strip c0) = true ->
     py_int c1 = Some level -> py_int c2 = Some tipo ->
     parse_line_fields [c0; c1; c2; p; v] = Some (strip c0, level, tipo, strip p, strip v)) /\
  (forall (st : L1State) (cnt : Counters) campos ts p v b a,
     parse_line_fields campos = Some (ts, 1, TYPE_LAST, p, v) ->
     st_bid st = Some b -> st_ask st = Some a ->
     py_decimal p = None \/ py_decimal b = None \/ py_decimal a = None ->
     let '(fecha, hora, frac7) := ts20_to_nt_parts ts in
     row_step st cnt campos =
       (set_last st p, inc_emitidos (inc_l1 (inc_validas (inc_total cnt))),
        inr (Some (mkTick fecha hora frac7 p b a v)))) /\
  (let '(_, _, r) := row_step (mkL1State None (Some (u "5000.00")) (Some (u "abc"))) zero_counters
                       [u "20240101093000323456"; u "1"; u "2"; u "4999.00"; u "3"] in
   exists t, r = inr (Some t) /\ t_bid t = u "5000.00" /\ t_price t = u "4999.00" /\
     exists db dp, py_decimal (t_bid t) = Some db /\ py_decimal (t_price t) = Some dp /\
                   dec_cmp db dp = Some Gt).
Proof.
  split; [|split].
  - intros c0 c1 c2 p v level tipo H20 Hd H1 H2.
    apply parse_line_fields_iff. simpl. split; [left; reflexivity|].
    split; [exact H20|]. split; [exact Hd|]. eauto 10.
  - intros st cnt campos ts p v b a Hp Hb Ha Hbad.
    rewrite (row_step_parsed _ _ _ _ _ _ _ _ Hp). cbv [ts20_to_nt_parts]. simpl.
    destruct st as [l b' a']; simpl in *; subst b' a'.
    rewrite clamp_fallback by exact Hbad. reflexivity.
  - rewrite row_step_bid_above_trade.
    eexists. split; [reflexivity|]. split; [reflexivity|]. split; [reflexivity|].
    exists (DFin 500000 (-2)), (DFin 499900 (-2)). vm_compute. repeat split.
Qed.

Lemma c9_non_decimal_prices_pass_through_witness :
  parse_line_fields [u "20240101093000323456"; u "1"; u "2"; []; u "x"]
  = Some (u "20240101093000323456", 1, 2, [], u "x") /\
  (let '(fecha, hora, frac7) := ts20_to_nt_parts (u "20240101093000323456") in
   row_step (mkL1State None (Some (u "5000.00")) (Some (u "abc"))) zero_counters
            [u "20240101093000323456"; u "1"; u "2"; u "4999.00"; u "3"]
   = (set_last (mkL1State None (Some (u "5000.00")) (Some (u "abc"))) (u "4999.00"),
      inc_emitidos (inc_l1 (inc_validas (inc_total zero_counters))),
      inr (Some (mkTick fecha hora frac7 (u "4999.00") (u "5000.00") (u "abc") (u "3"))))).
Proof.
  split.
  - apply (proj1 c9_non_decimal_prices_pass_through); vm_compute; reflexivity.
  - apply (proj1 (proj2 c9_non_decimal_prices_pass_through)
             _ _ _ (u "20240101093000323456") (u "4999.00") (u "3") (u "5000.00") (u "abc")).
    + vm_compute. reflexivity.
    + reflexivity.
    + reflexivity.
    + right. right. vm_compute. reflexivity.
Defined.

(** ** No trade line before a two-sided market *)

(** A row that parses as a Level-1 event of the given type. *)
Definition is_l1_of_type (tipo : Z) (campos : list pystr) : bool :=
  match parse_line_fields campos with
  | Some (_, level, t, _, _) => (level =? 1) && (t =? tipo)
  | None => false
  end.

Ltac row_cases :=
  unfold row_step;
  repeat match goal with
         | |- context [match ?x with _ => _ end] => destruct x eqn:?
         | |- context [if ?b then _ else _] => destruct b eqn:?
         end; simpl in *.

Lemma row_step_keeps_bid st cnt campos :
  is_l1_of_type TYPE_BID campos = false -> st_bid (row_step st cnt campos).1.1 = st_bid st.
Proof.
  unfold is_l1_of_type. intros H. row_cases; try reflexivity;
  repeat match goal with
         | E : _ = Some _, H : context [parse_line_fields] |- _ => rewrite E in H
         end; simpl in *; try congruence;
  repeat match goal with
         | E : (?x =? ?y) = _ |- _ => apply Z.eqb_eq in E || apply Z.eqb_neq in E
         | E : negb _ = _ |- _ => apply negb_false_iff in E || apply negb_true_iff in E
         end; subst; simpl in *; try lia.
Qed.

Lemma row_step_keeps_ask st cnt campos :
  is_l1_of_type TYPE_ASK campos = false -> st_ask (row_step st cnt campos).1.1 = st_ask st.
Proof.
  unfold is_l1_of_type. intros H. row_cases; try reflexivity;
  repeat match goal with
         | E : _ = Some _, H : context [parse_line_fields] |- _ => rewrite E in H
         end; simpl in *; try congruence;
  repeat match goal with
         | E : (?x =? ?y) = _ |- _ => apply Z.eqb_eq in E || apply Z.eqb_neq in E
         | E : negb _ = _ |- _ => apply negb_false_iff in E || apply negb_true_iff in E
         end; subst; simpl in *; try lia.
Qed.

Lemma row_step_no_tick_one_sided st cnt campos t :
  st_bid st = None \/ st_ask st = None -> (row_step st cnt campos).2 <> inr (Some t).
Proof.
  destruct st as [l b a]. simpl. intros Hs. row_cases; try congruence;
  destruct Hs; congruence.
Qed.

(** Splitting the row sequence. *)
Lemma rows_loop_app st cnt pre post :
  rows_loop st cnt (pre ++ post) =
  match rows_loop st cnt pre with
  | (st1, t1, inl e) => (st1, t1, inl e)
  | (st1, t1, inr cnt1) =>
      let '(st2, t2, r2) := rows_loop st1 cnt1 post in (st2, t1 ++ t2, r2)
  end.
Proof.
  revert st cnt. induction pre as [|r pre IH]; intros st cnt; simpl.
  - destruct (rows_loop st cnt post) as [[? ?] ?]. reflexivity.
  - destruct (row_step st cnt r) as [[st1 cnt1] [e|ot]]; [reflexivity|].
    rewrite IH. destruct (rows_loop st1 cnt1 pre) as [[st2 t2] [e|cnt2]]; [reflexivity|].
    destruct (rows_loop st2 cnt2 post) as [[st3 t3] r3]. rewrite app_assoc. reflexivity.
Qed.

Lemma rows_loop_no_ticks_without_bid st cnt rows :
  st_bid st = None -> Forall (fun r => is_l1_of_type TYPE_BID r = false) rows ->
  (rows_loop st cnt rows).1.2 = [].
Proof.
  intros Hb Hr. revert st cnt Hb. induction Hr as [|r rows Hr1 Hrs IH]; intros st cnt Hb; [reflexivity|].
  simpl. pose proof (row_step_keeps_bid st cnt r Hr1) as Hk.
  destruct (row_step st cnt r) as [[st1 cnt1] [e|[t|]]] eqn:E; [reflexivity| |].
  - exfalso. apply (row_step_no_tick_one_sided st cnt r t); [left; exact Hb|]. rewrite E. reflexivity.
  - simpl in Hk. specialize (IH st1 cnt1 ltac:(congruence)).
    destruct (rows_loop st1 cnt1 rows) as [[st2 t2] r2]. exact IH.
Qed.

Lemma rows_loop_no_ticks_without_ask st cnt rows :
  st_ask st = None -> Forall (fun r => is_l1_of_type TYPE_ASK r = false) rows ->
  (rows_loop st cnt rows).1.2 = [].
Proof.
  intros Ha Hr. revert st cnt Ha. induction Hr as [|r rows Hr1 Hrs IH]; intros st cnt Ha; [reflexivity|].
  simpl. pose proof (row_step_keeps_ask st cnt r Hr1) as Hk.
  destruct (row_step st cnt r) as [[st1 cnt1] [e|[t|]]] eqn:E; [reflexivity| |].
  - exfalso. apply (row_step_no_tick_one_sided st cnt r t); [right; exact Ha|]. rewrite E. reflexivity.
  - simpl in Hk. specialize (IH st1 cnt1 ltac:(congruence)).
    destruct (rows_loop st1 cnt1 rows) as [[st2 t2] r2]. exact IH.
Qed.

(** C3: while the contract's stored bid or ask is unset, a Level-1 trade
    row only records the trade price in [last] (and counts the row) and
    writes nothing; and a prefix of rows that contains no bid row (from a
    state without bid) or no ask row (from a state without ask) writes
    nothing, so every line written while processing [pre ++ post] comes
    from [post]. *)
Theorem c3_no_trade_before_two_sided_market :
  (forall (st : L1State) (cnt : Counters) campos ts p v,
     st_bid st = None \/ st_ask st = None ->
     parse_line_fields campos = Some (ts, 1, TYPE_LAST, p, v) ->
     row_step st cnt campos = (set_last st p, inc_l1 (inc_validas (inc_total cnt)), inr None)) /\
  (forall (st : L1State) (cnt : Counters) (pre post : list (list pystr)),
     (st_bid st = None /\ Forall (fun r => is_l1_of_type TYPE_BID r = false) pre) \/
     (st_ask st = None /\ Forall (fun r => is_l1_of_type TYPE_ASK r = false) pre) ->
     let '(st1, t1, r1) := rows_loop st cnt pre in
     t1 = [] /\
     rows_loop st cnt (pre ++ post) =
       match r1 with
       | inl e => (st1, [], inl e)
       | inr cnt1 => rows_loop st1 cnt1 post
       end).
Proof.
  split.
  - intros [l b a] cnt campos ts p v Hs Hp.
    rewrite (row_step_parsed _ _ _ _ _ _ _ _ Hp). cbv [ts20_to_nt_parts]. simpl.
    simpl in Hs. destruct Hs as [-> | ->]; [reflexivity|]. destruct b; reflexivity.
  - intros st cnt pre post H.
    assert (Ht : (rows_loop st cnt pre).1.2 = []).
    { destruct H as [[Hb Hr] | [Ha Hr]].
      - apply rows_loop_no_ticks_without_bid; assumption.
      - apply rows_loop_no_ticks_without_ask; assumption. }
    rewrite rows_loop_app.
    destruct (rows_loop st cnt pre) as [[st1 t1] [e|cnt1]]; simpl in Ht; subst t1.
    + split; reflexivity.
    + split; [reflexivity|]. destruct (rows_loop st1 cnt1 post) as [[? ?] ?]. reflexivity.
Qed.

Lemma c3_no_trade_before_two_sided_market_witness :
  row_step (mkL1State None (Some (u "5000.00")) None) zero_counters
           [u "20240101093000323456"; u "1"; u "2"; u "5000.50"; u "3"]
  = (set_last (mkL1State None (Some (u "5000.00")) None) (u "5000.50"),
     inc_l1 (inc_validas (inc_total zero_counters)), inr None) /\
  (let '(st1, t1, r1) := rows_loop empty_l1 zero_counters
                           [[u "20240101093000323456"; u "1"; u "2"; u "5000.50"; u "3"]] in
   t1 = [] /\
   rows_loop empty_l1 zero_counters
     ([[u "20240101093000323456"; u "1"; u "2"; u "5000.50"; u "3"]] ++ [])
   = match r1 with
     | inl e => (st1, [], inl e)
     | inr cnt1 => rows_loop st1 cnt1 []
     end).
Proof.
  split.
  - apply (proj1 c3_no_trade_before_two_sided_market _ _ _ (u "20240101093000323456") _ (u "3")).
    + right. reflexivity.
    + vm_compute. reflexivity.
  - apply (proj2 c3_no_trade_before_two_sided_market).
    left. split; [reflexivity|]. constructor; [vm_compute; reflexivity | constructor].
Defined.

(** ** Written lines respect bid <= price <= ask *)

Definition dec_le (a b : Dec) : bool :=
  match dec_cmp a b with
  | Some Lt | Some Eq => true
  | _ => false
  end.

(** [Decimal(a) <= Decimal(b)], both texts being decimals. *)
Definition str_dec_le (a b : pystr) : bool :=
  match py_decimal a, py_decimal b with
  | Some x, Some y => dec_le x y
  | _, _ => false
  end.

Definition is_decimal_str (s : pystr) : bool := bool_decide (is_Some (py_decimal s)).

(** A valid Level-1 row: if it parses as a Level-1 bid, ask or trade, its
    price is a decimal. *)
Definition row_prices_decimal (campos : list pystr) : bool :=
  match parse_line_fields campos with
  | Some (_, level, tipo, p, _) =>
      if (level =? 1) && ((tipo =? TYPE_BID) || (tipo =? TYPE_ASK) || (tipo =? TYPE_LAST))
      then is_decimal_str p else true
  | None => true
  end.

Definition opt_decimal (o : option pystr) : bool :=
  match o with
  | Some s => is_decimal_str s
  | None => true
  end.

Definition state_decimal (st : L1State) : bool := opt_decimal (st_bid st) && opt_decimal (st_ask st).

Definition tick_within_bbo (t : Tick) : bool :=
  str_dec_le (t_bid t) (t_price t) && str_dec_le (t_price t) (t_ask t).

Lemma dec_cmp_sym a b : dec_cmp b a = option_map CompOpp (dec_cmp a b).
Proof.
  destruct a as [c1 e1|n1|s1], b as [c2 e2|n2|s2]; simpl;
    repeat match goal with x : bool |- _ => destruct x end; try reflexivity.
  rewrite Z.min_comm, Z.compare_antisym. reflexivity.
Qed.

Lemma dec_cmp_defined_refl a b c : dec_cmp a b = Some c -> dec_cmp b b = Some Eq.
Proof.
  destruct a, b as [c2 e2|n2|s2]; simpl; try discriminate; intros _;
    repeat match goal with x : bool |- _ => destruct x end; try reflexivity;
    rewrite Z.min_id, Z.sub_diag, Z.compare_refl; reflexivity.
Qed.

Lemma is_decimal_str_some s : is_decimal_str s = true -> exists d, py_decimal s = Some d.
Proof. unfold is_decimal_str. rewrite bool_decide_eq_true. intros [d H]. eauto. Qed.

Lemma clamp_within_bbo p b a bo ao cb ca :
  is_decimal_str p = true -> is_decimal_str b = true -> is_decimal_str a = true ->
  clamp_bbo_with_last p b a = inr (bo, ao, cb, ca) ->
  str_dec_le bo p && str_dec_le p ao = true.
Proof.
  intros Hp Hb Ha.
  apply is_decimal_str_some in Hp as [dp Hp].
  apply is_decimal_str_some in Hb as [db Hb].
  apply is_decimal_str_some in Ha as [da Ha].
  unfold clamp_bbo_with_last, py_gt, py_lt. rewrite Hp, Hb, Ha.
  destruct (dec_cmp db dp) as [c|] eqn:E1; [|discriminate].
  destruct (dec_cmp da dp) as [c'|] eqn:E2; [|destruct (bool_decide (c = Gt)); discriminate].
  pose proof (dec_cmp_defined_refl _ _ _ E1) as Hrefl.
  pose proof (dec_cmp_sym da dp) as Hsym. rewrite E2 in Hsym.
  destruct c, c'; simpl; intros H; injection H as <- <- <- <-;
    unfold str_dec_le, dec_le; rewrite ?Hp, ?Hb, ?Ha, ?E1, ?Hrefl, ?Hsym; reflexivity.
Qed.

Local Ltac no_tick Hb Ha Hp :=
  intros H; injection H as <- <- <-; simpl; rewrite ?Hb, ?Ha, ?Hp;
  split; [reflexivity|congruence].

Lemma row_step_within_bbo st cnt campos st' cnt' r :
  state_decimal st = true -> row_prices_decimal campos = true ->
  row_step st cnt campos = (st', cnt', r) ->
  state_decimal st' = true /\ (forall t, r = inr (Some t) -> tick_within_bbo t = true).
Proof.
  unfold row_prices_decimal, state_decimal. destruct st as [l b a]; simpl.
  intros Hs Hp. apply andb_true_iff in Hs as [Hb Ha].
  destruct (parse_line_fields campos) as [[[[[ts level] tipo] p] v]|] eqn:Ep.
  2:{ unfold row_step. rewrite Ep. no_tick Hb Ha Hp. }
  rewrite (row_step_parsed _ _ _ _ _ _ _ _ Ep). cbv [ts20_to_nt_parts].
  destruct (Z.eqb_spec level 1) as [->|Hl]; simpl.
  2:{ no_tick Hb Ha Hp. }
  destruct (Z.eqb_spec tipo TYPE_BID) as [->|H0]; simpl in *.
  { no_tick Hb Ha Hp. }
  destruct (Z.eqb_spec tipo TYPE_ASK) as [->|H1]; simpl in *.
  { no_tick Hb Ha Hp. }
  destruct (Z.eqb_spec tipo TYPE_LAST) as [->|H2]; simpl in *.
  2:{ no_tick Hb Ha Hp. }
  destruct b as [b|]; [destruct a as [a|]|]; simpl in Hb, Ha.
  - destruct (clamp_bbo_with_last p b a) as [e|[[[bo ao] cb] ca]] eqn:Ec.
    + no_tick Hb Ha Hp.
    + intros H; injection H as <- <- <-. simpl. rewrite Hb, Ha. split; [reflexivity|].
      intros t Ht; injection Ht as <-. unfold tick_within_bbo. simpl.
      exact (clamp_within_bbo p b a bo ao cb ca Hp Hb Ha Ec).
  - no_tick Hb Ha Hp.
  - no_tick Hb Ha Hp.
Qed.

Lemma rows_loop_within_bbo st cnt rows :
  state_decimal st = true -> Forall (fun r => row_prices_decimal r = true) rows ->
  state_decimal (rows_loop st cnt rows).1.1 = true /\
  Forall (fun t => tick_within_bbo t = true) (rows_loop st cnt rows).1.2.
Proof.
  intros Hs Hr. revert st cnt Hs. induction Hr as [|r rows Hr1 Hrs IH]; intros st cnt Hs; simpl.
  - split; [exact Hs | constructor].
  - destruct (row_step st cnt r) as [[st1 cnt1] res] eqn:E.
    destruct (row_step_within_bbo _ _ _ _ _ _ Hs Hr1 E) as [Hs1 Ht].
    destruct res as [e|ot]; simpl.
    + split; [exact Hs1 | constructor].
    + specialize (IH st1 cnt1 Hs1).
      destruct (rows_loop st1 cnt1 rows) as [[st2 t2] r2]; simpl in *.
      destruct IH as [IH1 IH2]. split; [exact IH1|].
      apply Forall_app. split; [|exact IH2].
      destruct ot as [t|]; simpl; [|constructor]. constructor; [apply Ht; reflexivity | constructor].
Qed.

(** C1: clamping sets the bid to the trade price when the stored bid is
    above it (otherwise keeps the stored bid) and the ask to the trade price
    when the stored ask is below it (otherwise keeps the stored ask); and
    from a state whose stored bid and ask are decimals, over rows whose
    Level-1 bid/ask/trade prices are decimals, every line written has
    [Decimal(bid) <= Decimal(price) <= Decimal(ask)]. *)
Theorem c1_emitted_lines_within_bbo :
  (forall p b a dp db da cb ca,
     py_decimal p = Some dp -> py_decimal b = Some db -> py_decimal a = Some da ->
     dec_cmp db dp = Some cb -> dec_cmp da dp = Some ca ->
     clamp_bbo_with_last p b a =
       inr (if bool_decide (cb = Gt) then p else b, if bool_decide (ca = Lt) then p else a,
            bool_decide (cb = Gt), bool_decide (ca = Lt))) /\
  (forall (st : L1State) (cnt : Counters) (rows : list (list pystr)),
     state_decimal st = true -> Forall (fun r => row_prices_decimal r = true) rows ->
     Forall (fun t => str_dec_le (t_bid t) (t_price t) = true /\
                      str_dec_le (t_price t) (t_ask t) = true)
            (rows_loop st cnt rows).1.2).
Proof.
  split.
  - intros p b a dp db da cb ca Hp Hb Ha E1 E2.
    unfold clamp_bbo_with_last, py_gt, py_lt. rewrite Hp, Hb, Ha, E1, E2.
    destruct (bool_decide (cb = Gt)), (bool_decide (ca = Lt)); reflexivity.
  - intros st cnt rows Hs Hr.
    destruct (rows_loop_within_bbo st cnt rows Hs Hr) as [_ Ht].
    eapply Forall_impl; [exact Ht|]. intros t H. unfold tick_within_bbo in H.
    apply andb_true_iff in H. exact H.
Qed.

Lemma c1_emitted_lines_within_bbo_witness :
  clamp_bbo_with_last (u "4999.00") (u "5000.00") (u "5000.25")
  = inr (u "4999.00", u "5000.25", true, false) /\
  Forall (fun t => str_dec_le (t_bid t) (t_price t) = true /\
                   str_dec_le (t_price t) (t_ask t) = true)
         (rows_loop empty_l1 zero_counters
            [[u "20240101093000123456"; u "1"; u "0"; u "5000.00"; u "10"];
             [u "20240101093000223456"; u "1"; u "1"; u "5000.25"; u "7"];
             [u "20240101093000323456"; u "1"; u "2"; u "4999.00"; u "3"]]).1.2.
Proof.
  split.
  - exact (proj1 c1_emitted_lines_within_bbo (u "4999.00") (u "5000.00") (u "5000.25")
             _ _ _ Gt Gt eq_refl eq_refl eq_refl eq_refl eq_refl).
  - apply (proj2 c1_emitted_lines_within_bbo).
    + reflexivity.
    + repeat constructor.
Defined.

(** ** Rollover dates and the front contract *)

Lemma days_in_month_ge_28 y m : 28 <= days_in_month y m.
Proof. unfold days_in_month. destruct (m =? 2); [destruct (is_leap y); lia|]. destruct (_ || _); lia. Qed.

Lemma iter_next_day_in_month y m k (n : nat) :
  1 <= k -> k + Z.of_nat n <= 28 ->
  Nat.iter n next_day (mkdate y m k) = mkdate y m (k + Z.of_nat n).
Proof.
  intros Hk. induction n as [|n IH]; intros Hn.
  - simpl. f_equal. lia.
  - rewrite Nat.iter_succ, IH by lia. unfold next_day. simpl.
    pose proof (days_in_month_ge_28 y m).
    destruct (Z.ltb_spec (k + Z.of_nat n) (days_in_month y m)); [|lia].
    f_equal. lia.
Qed.

Lemma add_days_in_month y m k n :
  1 <= k -> 0 <= n -> k + n <= 28 -> add_days (mkdate y m k) n = mkdate y m (k + n).
Proof.
  intros Hk Hn Hkn. unfold add_days.
  rewrite iter_next_day_in_month by lia. f_equal. lia.
Qed.

Lemma second_friday_eq y m :
  second_friday y m = mkdate y m (8 + (4 - weekday (mkdate y m 1)) mod 7).
Proof.
  unfold second_friday.
  set (off := (4 - weekday (mkdate y m 1)) mod 7).
  assert (0 <= off < 7) by (unfold off; apply Z.mod_pos_bound; lia).
  rewrite add_days_in_month by lia. rewrite add_days_in_month by lia.
  f_equal. lia.
Qed.

Lemma weekday_second_friday y m : weekday (second_friday y m) = 4.
Proof.
  rewrite second_friday_eq. unfold weekday, toordinal. simpl.
  set (base := days_before_year y + days_before_month y m).
  Z.div_mod_to_equations. lia.
Qed.

Lemma second_friday_day y m : 8 <= day (second_friday y m) <= 14.
Proof.
  rewrite second_friday_eq. simpl.
  pose proof (Z.mod_pos_bound (4 - weekday (mkdate y m 1)) 7). lia.
Qed.

Lemma second_friday_shape y m :
  exists o, 0 <= o < 7 /\ second_friday y m = mkdate y m (8 + o).
Proof.
  exists ((4 - weekday (mkdate y m 1)) mod 7). split.
  - apply Z.mod_pos_bound. lia.
  - apply second_friday_eq.
Qed.

Definition date_ltP (a b : date) : Prop :=
  year a < year b \/ (year a = year b /\ (month a < month b \/ (month a = month b /\ day a < day b))).

Lemma date_lt_true a b : date_lt a b = true <-> date_ltP a b.
Proof.
  unfold date_lt, date_ltP.
  destruct (Z.ltb_spec (year a) (year b)), (Z.eqb_spec (year a) (year b)),
           (Z.ltb_spec (month a) (month b)), (Z.eqb_spec (month a) (month b)),
           (Z.ltb_spec (day a) (day b)); simpl; split; intros; try lia; discriminate.
Qed.

Lemma date_lt_false a b : date_lt a b = false <-> ~ date_ltP a b.
Proof. rewrite <- date_lt_true. destruct (date_lt a b); split; congruence. Qed.

Ltac date_cases :=
  repeat match goal with
         | |- context [date_lt ?a ?b] =>
             let E := fresh "E" in
             destruct (date_lt a b) eqn:E;
             [apply date_lt_true in E | apply date_lt_false in E];
             unfold date_ltP in E; cbn [year month day] in E
         | H : date_lt _ _ = true |- _ =>
             apply date_lt_true in H; unfold date_ltP in H; cbn [year month day] in H
         | H : date_lt _ _ = false |- _ =>
             apply date_lt_false in H; unfold date_ltP in H; cbn [year month day] in H
         end.

(** C4: [front_contract_for_date d] is March of [d]'s year before the
    second Friday of March, June before the second Friday of June, then
    September, December, and March of the next year from the second Friday
    of December on; the second Friday of a month (the first Friday on or
    after the 1st, plus seven days) is a valid date of that month, a Friday,
    between the 8th and the 14th; on that date of March, June, September or
    December the front contract is already the next one, and the day before
    it is still that month's contract. *)
Theorem c4_front_contract_rollover :
  (forall d : date,
     let y := year d in
     (date_lt d (second_friday y 3) = true -> front_contract_for_date d = (3, y)) /\
     (date_lt d (second_friday y 3) = false -> date_lt d (second_friday y 6) = true ->
        front_contract_for_date d = (6, y)) /\
     (date_lt d (second_friday y 6) = false -> date_lt d (second_friday y 9) = true ->
        front_contract_for_date d = (9, y)) /\
     (date_lt d (second_friday y 9) = false -> date_lt d (second_friday y 12) = true ->
        front_contract_for_date d = (12, y)) /\
     (date_lt d (second_friday y 12) = false -> front_contract_for_date d = (3, y + 1))) /\
  (forall y m, 1 <= y <= 9999 -> m = 3 \/ m = 6 \/ m = 9 \/ m = 12 ->
     let sf := second_friday y m in
     valid_date sf /\ year sf = y /\ month sf = m /\ weekday sf = 4 /\ 8 <= day sf <= 14 /\
     front_contract_for_date sf = (if m =? 12 then (3, y + 1) else (m + 3, y)) /\
     front_contract_for_date (prev_day sf) = (m, y)).
Proof.
  split.
  - intros [y dm dd]. cbv zeta. unfold front_contract_for_date. cbn [year].
    destruct (second_friday_shape y 3) as [o3 [Ho3 E3]].
    destruct (second_friday_shape y 6) as [o6 [Ho6 E6]].
    destruct (second_friday_shape y 9) as [o9 [Ho9 E9]].
    destruct (second_friday_shape y 12) as [o12 [Ho12 E12]].
    rewrite E3, E6, E9, E12.
    repeat split; intros; date_cases; first [reflexivity | exfalso; lia | congruence].
  - intros y m Hy Hm. cbv zeta.
    pose proof (weekday_second_friday y m) as Hwd.
    destruct (second_friday_shape y 3) as [o3 [Ho3 E3]].
    destruct (second_friday_shape y 6) as [o6 [Ho6 E6]].
    destruct (second_friday_shape y 9) as [o9 [Ho9 E9]].
    destruct (second_friday_shape y 12) as [o12 [Ho12 E12]].
    pose proof (days_in_month_ge_28 y m).
    destruct Hm as [-> | [-> | [-> | ->]]];
      [rewrite E3 in Hwd |- * | rewrite E6 in Hwd |- * | rewrite E9 in Hwd |- * | rewrite E12 in Hwd |- *];
      (split; [unfold valid_date; cbn [year month day]; lia|]);
      (do 3 (split; [first [reflexivity | exact Hwd]|]));
      (split; [cbn [day]; lia|]);
      unfold front_contract_for_date, prev_day; cbn [year month day];
      (match goal with |- context [1 <? ?x] => destruct (Z.ltb_spec 1 x); [|lia] end); cbn [year month day];
      rewrite E3, E6, E9, E12;
      split; date_cases; first [reflexivity | exfalso; lia].
Qed.

Lemma c4_front_contract_rollover_witness :
  front_contract_for_date (mkdate 2024 3 7) = (3, 2024) /\
  (let sf := second_friday 2024 12 in
   valid_date sf /\ year sf = 2024 /\ month sf = 12 /\ weekday sf = 4 /\ 8 <= day sf <= 14 /\
   front_contract_for_date sf = (if 12 =? 12 then (3, 2024 + 1) else (12 + 3, 2024)) /\
   front_contract_for_date (prev_day sf) = (12, 2024)).
Proof.
  split.
  - apply (proj1 (proj1 c4_front_contract_rollover (mkdate 2024 3 7))). vm_compute. reflexivity.
  - apply (proj2 c4_front_contract_rollover); lia.
Defined.

(* ------------------------------------------------------------------ *)
(** *** Symbol inference *)

Lemma take_while_split f s : s = take_while f s ++ skipn (length (take_while f s)) s.
Proof. induction s as [|c t IH]; simpl; [reflexivity|]. destruct (f c); simpl; [f_equal; exact IH | reflexivity]. Qed.

Lemma take_while_all f s : forallb f (take_while f s) = true.
Proof. induction s as [|c t IH]; simpl; [reflexivity|]. destruct (f c) eqn:E; simpl; [rewrite E; exact IH | reflexivity]. Qed.

Lemma take_while_app f a c r :
  forallb f a = true -> f c = false -> take_while f (a ++ c :: r) = a.
Proof.
  induction a as [|x a IH]; simpl; intros Ha Hc.
  - rewrite Hc. reflexivity.
  - apply andb_prop in Ha as [Hx Ha]. rewrite Hx. f_equal. exact (IH Ha Hc).
Qed.

(** A folder name of the form [_RE_FOLDER] describes, followed by [tl]:
    the captured symbol (ASCII letters and digits), the tier marker [_T1_]
    or [_T2_], and six decimal digits. *)
Definition folder_shape_tl (name sym tl : pystr) : Prop :=
  exists t ds,
    name = sym ++ [95; 84; t; 95] ++ ds ++ tl /\
    sym <> [] /\ forallb is_alnum_ascii sym = true /\
    (t = 49 \/ t = 50) /\ length ds = 6%nat /\ forallb is_decimal ds = true.

(** A folder name of that form, with symbol [sym]. *)
Definition folder_shape (name sym : pystr) : Prop := folder_shape_tl name sym [].

(** A name neither of that form nor of that form followed by a newline. *)
Definition folder_unmatched (name : pystr) : Prop :=
  forall sym, ~ folder_shape name sym /\ ~ (exists n0, name = n0 ++ [10] /\ folder_shape n0 sym).

Ltac zpos_cases c :=
  destruct c as [|?p|?p]; try discriminate;
  repeat (match goal with p : positive |- _ => destruct p end; try discriminate).

Lemma folder_tail_inv (l : pystr) (F : Z -> pystr -> option pystr) x :
  match l with
  | 95 :: 84 :: t :: 95 :: tl => F t tl
  | _ => None
  end = Some x -> exists t tl, l = 95 :: 84 :: t :: 95 :: tl /\ F t tl = Some x.
Proof.
  destruct l as [|c0 [|c1 [|t [|c3 tl]]]]; intros H; try discriminate;
    zpos_cases c0; try zpos_cases c1; try zpos_cases c3; eauto.
Qed.

Lemma folder_match_tl name sym :
  folder_match name = Some sym <-> exists tl, (tl = [] \/ tl = [10]) /\ folder_shape_tl name sym tl.
Proof.
  unfold folder_match, folder_shape_tl. split.
  - pose proof (take_while_split is_alnum_ascii name) as Hs.
    pose proof (take_while_all is_alnum_ascii name) as Ha.
    set (tw := take_while is_alnum_ascii name) in *.
    case_bool_decide as Hn; [discriminate|].
    intros H.
    destruct (folder_tail_inv _ _ _ H) as (t & tl & Ek & H'). clear H.
    revert H'.
    destruct ((t =? 49) || (t =? 50)) eqn:Et; [|discriminate]. simpl.
    case_bool_decide as Hl; [|discriminate].
    destruct (forallb is_decimal (firstn 6 tl)) eqn:Ed; [|discriminate]. simpl.
    destruct (bool_decide (skipn 6 tl = []) || bool_decide (skipn 6 tl = [10])) eqn:Htl;
      [|discriminate].
    intros H; injection H as <-.
    exists (skipn 6 tl). split.
    + apply orb_prop in Htl as [E|E]; apply bool_decide_eq_true_1 in E; auto.
    + exists t, (firstn 6 tl). rewrite (firstn_skipn 6 tl).
      repeat split; try assumption.
      * rewrite Hs at 1. rewrite Ek. reflexivity.
      * apply orb_prop in Et as [E|E]; apply Z.eqb_eq in E; auto.
  - intros (tl & Htl & t & ds & -> & Hn & Ha & Ht & Hl & Hd).
    cbn [app]. rewrite (take_while_app is_alnum_ascii sym 95 _ Ha eq_refl).
    rewrite skipn_app, Nat.sub_diag, skipn_all. simpl.
    case_bool_decide; [contradiction|].
    rewrite firstn_app, Hl, Nat.sub_diag, firstn_O, app_nil_r, firstn_all2 by lia.
    rewrite skipn_app, Hl, Nat.sub_diag, skipn_O.
    replace (skipn 6 ds) with (@nil Z) by (symmetry; apply skipn_all2; lia). simpl.
    rewrite Hd.
    destruct Ht as [-> | ->]; destruct Htl as [-> | ->]; reflexivity.
Qed.

Lemma folder_shape_tl_nl name sym :
  folder_shape_tl name sym [10] <-> exists n0, name = n0 ++ [10] /\ folder_shape n0 sym.
Proof.
  unfold folder_shape, folder_shape_tl. split.
  - intros (t & ds & -> & H). exists (sym ++ [95; 84; t; 95] ++ ds). split.
    + rewrite <- !app_assoc. reflexivity.
    + exists t, ds. rewrite app_nil_r. auto.
  - intros (n0 & -> & t & ds & -> & H). exists t, ds. rewrite app_nil_r.
    split; [|exact H]. rewrite <- !app_assoc. reflexivity.
Qed.

(** [_RE_FOLDER] matches a name of the form, and that form followed by
    one newline ([$] matches before a final newline). *)
Lemma folder_match_iff name sym :
  folder_match name = Some sym <->
  folder_shape name sym \/ (exists n0, name = n0 ++ [10] /\ folder_shape n0 sym).
Proof.
  rewrite folder_match_tl, <- folder_shape_tl_nl. unfold folder_shape. split.
  - intros (tl & [-> | ->] & H); auto.
  - intros [H|H]; eauto.
Qed.

Lemma folder_match_unmatched name : folder_unmatched name -> folder_match name = None.
Proof.
  intros H. destruct (folder_match name) as [sym|] eqn:E; [|reflexivity].
  apply folder_match_iff in E. destruct (H sym). tauto.
Qed.

Lemma folder_match_none name : folder_match name = None -> folder_unmatched name.
Proof.
  intros E sym. split; intros H;
    assert (folder_match name = Some sym) by (apply folder_match_iff; auto); congruence.
Qed.

Lemma folder_match_shape name sym : folder_shape name sym -> folder_match name = Some sym.
Proof. intros H. apply folder_match_iff. auto. Qed.

(** C6 (counterexample): an empty override [--symbol ''] is supplied but
    not returned, since [if forced_symbol:] treats it as absent: under the
    folder [ES_T2_202401] inference yields [ES], and with no matching
    folder it raises. *)
Lemma c6_empty_override_not_returned :
  infer_symbol_from_path (fi_path es_file) (Some []) = inr (u "ES") /\
  infer_symbol_from_path [u "data"; u "x.csv"] (Some []) = inl (symbol_error [u "data"; u "x.csv"]).
Proof. vm_compute. split; reflexivity. Qed.

(** C6 (amended): a non-empty override is returned unchanged.  With no
    override, or an empty one: if the parent directory name is [sym]
    (non-empty, ASCII letters and digits), then [_T1_] or [_T2_], then six
    decimal digits, [sym] is returned; if the parent name is not of that
    form and the grandparent name is, the grandparent's symbol is
    returned; if neither is, [ValueError] is raised.  (A name of that form
    followed by a final newline is left out: neither promised to match nor
    to fail.) *)
Theorem c6_symbol_inference :
  (forall p s, s <> [] -> infer_symbol_from_path p (Some s) = inr s) /\
  (forall p fs sym, (fs = None \/ fs = Some []) ->
     folder_shape (path_name (path_parent p)) sym ->
     infer_symbol_from_path p fs = inr sym) /\
  (forall p fs sym, (fs = None \/ fs = Some []) ->
     folder_unmatched (path_name (path_parent p)) ->
     folder_shape (path_name (path_parent (path_parent p))) sym ->
     infer_symbol_from_path p fs = inr sym) /\
  (forall p fs, (fs = None \/ fs = Some []) ->
     folder_unmatched (path_name (path_parent p)) ->
     folder_unmatched (path_name (path_parent (path_parent p))) ->
     infer_symbol_from_path p fs = inl (symbol_error p)).
Proof.
  assert (Hs : forall p fs, (fs = None \/ fs = Some []) ->
     infer_symbol_from_path p fs =
       match folder_match (path_name (path_parent p)) with
       | Some m => inr m
       | None =>
           match folder_match (path_name (path_parent (path_parent p))) with
           | Some m => inr m
           | None => inl (symbol_error p)
           end
       end).
  { intros p fs [-> | ->]; unfold infer_symbol_from_path; simpl;
      destruct (folder_match (path_name (path_parent p))); [reflexivity| |reflexivity|];
      destruct (folder_match (path_name (path_parent (path_parent p)))); reflexivity. }
  split; [|split; [|split]].
  - intros p s Hne. unfold infer_symbol_from_path. case_bool_decide; [contradiction|reflexivity].
  - intros p fs sym Hfs H. rewrite (Hs p fs Hfs), (folder_match_shape _ _ H). reflexivity.
  - intros p fs sym Hfs H1 H2.
    rewrite (Hs p fs Hfs), (folder_match_unmatched _ H1), (folder_match_shape _ _ H2). reflexivity.
  - intros p fs Hfs H1 H2.
    rewrite (Hs p fs Hfs), (folder_match_unmatched _ H1), (folder_match_unmatched _ H2). reflexivity.
Qed.

Lemma c6_symbol_inference_witness :
  infer_symbol_from_path (fi_path es_file) (Some (u "NQ")) = inr (u "NQ") /\
  infer_symbol_from_path (fi_path es_file) None = inr (u "ES") /\
  infer_symbol_from_path [u "ES_T1_202403"; u "day"; u "20240301.csv"] (Some []) = inr (u "ES") /\
  infer_symbol_from_path [u "data"; u "x"; u "y.csv"] None =
    inl (symbol_error [u "data"; u "x"; u "y.csv"]).
Proof.
  split; [|split; [|split]].
  - apply (proj1 c6_symbol_inference). discriminate.
  - apply (proj1 (proj2 c6_symbol_inference)); [left; reflexivity|].
    exists 50, (u "202401"). vm_compute.
    split; [reflexivity|]. split; [discriminate|]. split; [reflexivity|].
    split; [right; reflexivity|]. split; reflexivity.
  - apply (proj1 (proj2 (proj2 c6_symbol_inference))); [right; reflexivity| |].
    + apply folder_match_none. vm_compute. reflexivity.
    + exists 49, (u "202403"). vm_compute.
      split; [reflexivity|]. split; [discriminate|]. split; [reflexivity|].
      split; [left; reflexivity|]. split; reflexivity.
  - apply (proj2 (proj2 (proj2 c6_symbol_inference))); [left; reflexivity| |];
      apply folder_match_none; vm_compute; reflexivity.
Defined.

(* ------------------------------------------------------------------ *)
(** *** The driver: per-file recovery and the final release *)






(** A file whose name holds the byte [0xF1], which is not UTF-8: Python
    names it [a\udcf1o.csv] (56561 is U+DCF1), and its folder [data] names
    no symbol. *)
Definition bad_name_file : InputFile :=
  mkInputFile [u "data"; u "a" ++ [56561] ++ u "o.csv"] None.

(** C7 (code bug): the handler's warning shows the path, which a strict
    UTF-8 standard output cannot write when the file name is not UTF-8.
    Over [bad_name_file] and then the example file: symbol inference fails
    for the first file, printing its warning raises [UnicodeEncodeError],
    which ends the run; the writers are still closed on the way out, and
    the example file is never processed (nothing is written).  With a
    standard output that can write the name, the same run skips the first
    file and writes the example file's line. *)
Theorem c7_warning_print_aborts_run :
  (let '(w, r) := run_main utf8_strict None [bad_name_file; es_file] ∅ in
   r = inl UnicodeEncodeError /\ w_disk w = ∅ /\ w_handles w = ∅ /\ w_state w = ∅) /\
  (let '(w, r) := run_main utf8_surrogateescape None [bad_name_file; es_file] ∅ in
   w_disk w = {[ u "ES 03-24.Last.txt" := es_written_line ]} /\
   r = inr (mkSummary 2 (mkCounters 3 3 3 1 1)
              [Skipped (symbol_error (fi_path bad_name_file)); Processed (mkCounters 3 3 3 1 1)])).
Proof.
  split.
  - vm_compute. split; [|split; [|split]]; reflexivity.
  - vm_compute. split; reflexivity.
Qed.

(* ------------------------------------------------------------------ *)
(** *** Output as a function of the input *)

(** [D1] is [d] with, file by file, the text of [D2] appended. *)
Definition disk_ext (d D1 D2 : gmap pystr pystr) : Prop :=
  forall n, default [] (D1 !! n) = default [] (d !! n) ++ default [] (D2 !! n).

(** Two worlds with the same writers and states whose outputs differ only
    by the prior contents [d]. *)
Definition world_rel (d : gmap pystr pystr) (w1 w2 : World) : Prop :=
  w_handles w1 = w_handles w2 /\ w_state w1 = w_state w2 /\
  w_closed w1 = w_closed w2 /\ disk_ext d (w_disk w1) (w_disk w2).

Lemma disk_ext_append d D1 D2 name txt :
  disk_ext d D1 D2 -> disk_ext d (append_file name txt D1) (append_file name txt D2).
Proof.
  unfold disk_ext, append_file. intros H n.
  destruct (decide (n = name)) as [->|Hne].
  - rewrite !lookup_insert. repeat case_decide; try congruence. cbn. rewrite H. symmetry. apply app_assoc.
  - rewrite !lookup_insert_ne by congruence. apply H.
Qed.

Lemma export_rel d out f forced_symbol w1 w2 :
  world_rel d w1 w2 ->
  world_rel d (fst (export_csv_day_to_contract_last_allformat out f forced_symbol w1))
              (fst (export_csv_day_to_contract_last_allformat out f forced_symbol w2)) /\
  snd (export_csv_day_to_contract_last_allformat out f forced_symbol w1) =
  snd (export_csv_day_to_contract_last_allformat out f forced_symbol w2).
Proof.
  destruct w1 as [h st D1 c], w2 as [h2 st2 D2 c2].
  intros (Hh & Hs & Hc & Hd). cbn in Hh, Hs, Hc, Hd. subst h2 st2 c2.
  unfold export_csv_day_to_contract_last_allformat.
  cbv beta iota delta [mbind M_bind get_writer modify get_state lift raise mret M_ret py_print].
  destruct (infer_symbol_from_path (fi_path f) forced_symbol) as [e|symbol];
    [cbn; split; [repeat split; assumption | reflexivity]|].
  destruct (infer_trade_date_from_filename (fi_path f)) as [e|dt];
    [cbn; split; [repeat split; assumption | reflexivity]|].
  destruct (front_contract_for_date dt) as [m y].
  cbn -[read_csv rows_loop outfile append_file printable].
  case_bool_decide; cbn -[read_csv rows_loop outfile append_file printable];
    repeat (match goal with
            | |- context [?x !! ?k] => is_var x; destruct (x !! k)
            | |- context [<[?k := ?v]> ?x !! ?k] => rewrite lookup_insert
            | |- context [fi_data ?g] => destruct (fi_data g)
            | |- context [read_csv ?t] => destruct (read_csv t)
            | |- context [rows_loop ?a ?b ?c] => destruct (rows_loop a b c) as [[? ?] ?]
            | |- context [printable ?o ?t] => destruct (printable o t)
            | |- context [match ?r with inl _ => _ | inr _ => _ end] => is_var r; destruct r
            | |- context [match ?o with Some _ => _ | None => _ end] => is_var o; destruct o
            end; cbn -[read_csv rows_loop outfile append_file printable]);
    (split; [repeat split; cbn; repeat apply disk_ext_append; assumption | reflexivity]).
Qed.

Lemma main_loop_rel d out forced_symbol files :
  forall s w1 w2, world_rel d w1 w2 ->
    world_rel d (fst (main_loop out forced_symbol files s w1))
                (fst (main_loop out forced_symbol files s w2)) /\
    snd (main_loop out forced_symbol files s w1) = snd (main_loop out forced_symbol files s w2).
Proof.
  induction files as [|f fs IH]; intros s w1 w2 H.
  - cbn. auto.
  - pose proof (export_rel d out f forced_symbol w1 w2 H) as [Hr Hs].
    cbn [main_loop]. unfold mbind, M_bind, try_except, mret, M_ret, py_print, raise.
    destruct (export_csv_day_to_contract_last_allformat out f forced_symbol w1) as [w1' r1].
    destruct (export_csv_day_to_contract_last_allformat out f forced_symbol w2) as [w2' r2].
    cbn in Hr, Hs. subst r2. destruct r1; [destruct (printable out (warn_line f e)); cbn|];
      first [apply IH; exact Hr | split; [exact Hr | reflexivity]].
Qed.

Lemma disk_ext_empty d : disk_ext d d ∅.
Proof. intros n. rewrite lookup_empty. cbn. symmetry. apply app_nil_r. Qed.

(** C8: the output of a run is a function of its input alone.  A run over
    an output directory with prior contents [d] returns the same result
    and closes the same writers as the run over an empty directory, and
    every output file ends up holding its prior text followed by exactly
    the text the run over the empty directory writes to it (for any
    standard output). *)
Theorem c8_output_function_of_input :
  forall out forced_symbol files d,
    let '(w, r) := run_main out forced_symbol files d in
    let '(w', r') := run_main out forced_symbol files ∅ in
    r = r' /\ w_closed w = w_closed w' /\
    forall n, default [] (w_disk w !! n) = default [] (d !! n) ++ default [] (w_disk w' !! n).
Proof.
  intros out forced_symbol files d. unfold run_main.
  destruct files as [|f fs].
  - cbv [mbind M_bind py_print mret M_ret raise].
    destruct (printable out info_line); cbn;
      (split; [reflexivity|]; split; [reflexivity|]; apply disk_ext_empty).
  - cbv [mbind M_bind py_print mret M_ret raise with_writers]. cbn [w_disk w_closed].
    assert (H0 : world_rel d (mkWorld ∅ ∅ d ∅) (mkWorld ∅ ∅ ∅ ∅)).
    { split; [reflexivity|]. split; [reflexivity|]. split; [reflexivity|]. apply disk_ext_empty. }
    pose proof (main_loop_rel d out forced_symbol (f :: fs) zero_summary _ _ H0) as [Hr Hs].
    destruct (main_loop out forced_symbol (f :: fs) zero_summary (mkWorld ∅ ∅ d ∅)) as [w1 r1].
    destruct (main_loop out forced_symbol (f :: fs) zero_summary (mkWorld ∅ ∅ ∅ ∅)) as [w2 r2].
    cbn in Hr, Hs. destruct Hr as (Hh & _ & Hc & Hd). subst r2.
    destruct r1 as [e|sm]; [|destruct (printable out (summary_text sm))]; cbn;
      (split; [reflexivity|]; split; [rewrite Hh, Hc; reflexivity|]; exact Hd).
Qed.

(* ================================================================== *)
(** * Further properties of the code *)

(* ------------------------------------------------------------------ *)
(** ** [clamp_bbo_with_last] *)

Definition is_nan (d : Dec) : bool :=
  match d with DNaN _ => true | _ => false end.

(** Clamping is idempotent: clamping its own output again (same trade
    price) returns that output unchanged, with both flags false. *)
Theorem clamp_bbo_idempotent p b a b' a' fb fa :
  clamp_bbo_with_last p b a = inr (b', a', fb, fa) ->
  clamp_bbo_with_last p b' a' = inr (b', a', false, false).
Proof.
  intros H.
  destruct (py_decimal p) as [dp|] eqn:Hp;
    [|rewrite clamp_fallback in H by auto; injection H as <- <- _ _; apply clamp_fallback; auto].
  destruct (py_decimal b) as [db|] eqn:Hb;
    [|rewrite clamp_fallback in H by auto; injection H as <- <- _ _; apply clamp_fallback; auto].
  destruct (py_decimal a) as [da|] eqn:Ha;
    [|rewrite clamp_fallback in H by auto; injection H as <- <- _ _; apply clamp_fallback; auto].
  unfold clamp_bbo_with_last, py_gt, py_lt in H. rewrite Hp, Hb, Ha in H.
  destruct (dec_cmp db dp) as [c|] eqn:E1; [|discriminate].
  destruct (dec_cmp da dp) as [c'|] eqn:E2; [|destruct (bool_decide (c = Gt)); discriminate].
  pose proof (dec_cmp_defined_refl _ _ _ E1) as Hrefl.
  destruct c, c'; simpl in H; injection H as <- <- _ _;
    unfold clamp_bbo_with_last, py_gt, py_lt; rewrite ?Hp, ?Hb, ?Ha, ?E1, ?E2, ?Hrefl;
    reflexivity.
Qed.

Lemma clamp_bbo_idempotent_witness :
  clamp_bbo_with_last (u "5000.50") (u "5000.00") (u "5000.50") =
  inr (u "5000.00", u "5000.50", false, false).
Proof.
  apply (clamp_bbo_idempotent (u "5000.50") (u "5000.00") (u "5000.25") _ _ false true).
  vm_compute. reflexivity.
Defined.

(** When the three texts are decimals and one of them is a NaN ([NaN],
    [sNaN], ...), [clamp_bbo_with_last] raises [InvalidOperation]: the
    ordering comparisons lie outside its [try]. *)
Theorem clamp_bbo_nan_raises p b a dp db da :
  py_decimal p = Some dp -> py_decimal b = Some db -> py_decimal a = Some da ->
  is_nan dp || is_nan db || is_nan da = true ->
  clamp_bbo_with_last p b a = inl InvalidOperation.
Proof.
  intros Hp Hb Ha Hn. unfold clamp_bbo_with_last, py_gt, py_lt. rewrite Hp, Hb, Ha.
  destruct dp, db, da; simpl in Hn; try discriminate; simpl;
    try destruct (bool_decide _); reflexivity.
Qed.

Lemma clamp_bbo_nan_raises_witness :
  clamp_bbo_with_last (u "NaN") (u "5000.00") (u "5000.50") = inl InvalidOperation.
Proof.
  apply (clamp_bbo_nan_raises _ _ _ (DNaN false) (DFin 500000 (-2)) (DFin 500050 (-2)));
    vm_compute; reflexivity.
Defined.

(* ------------------------------------------------------------------ *)
(** ** The row loop *)

(** The loop stops at the first row that raises: the lines of the rows
    before it are kept, the rows after it are never processed, and the
    state is the one the raising row left. *)
Theorem rows_loop_stops_at_error st cnt pre r post st1 ts1 cnt1 st2 cnt2 e :
  rows_loop st cnt pre = (st1, ts1, inr cnt1) ->
  row_step st1 cnt1 r = (st2, cnt2, inl e) ->
  rows_loop st cnt (pre ++ r :: post) = (st2, ts1, inl e).
Proof.
  intros H1 H2. rewrite rows_loop_app, H1. simpl. rewrite H2. simpl.
  rewrite app_nil_r. reflexivity.
Qed.

Definition ex_row (ts lvl tipo p v : string) : list pystr := [u ts; u lvl; u tipo; u p; u v].

Lemma rows_loop_stops_at_error_witness :
  rows_loop empty_l1 zero_counters
    ([ex_row "20240101093000123456" "1" "0" "5000.00" "10";
      ex_row "20240101093000223456" "1" "1" "5000.25" "7";
      ex_row "20240101093000323456" "1" "2" "5000.25" "3"] ++
     ex_row "20240101093000423456" "1" "2" "NaN" "1" ::
     [ex_row "20240101093000523456" "1" "2" "5000.25" "2"]) =
  (mkL1State (Some (u "NaN")) (Some (u "5000.00")) (Some (u "5000.25")),
   [mkTick (u "20240101") (u "093000") (u "3234560") (u "5000.25") (u "5000.00")
           (u "5000.25") (u "3")],
   inl InvalidOperation).
Proof.
  apply (rows_loop_stops_at_error _ _ _ _ _
           (mkL1State (Some (u "5000.25")) (Some (u "5000.00")) (Some (u "5000.25")))
           _ (mkCounters 3 3 3 1 0) _ (mkCounters 4 4 4 1 0));
    vm_compute; reflexivity.
Defined.

Lemma row_step_counters st cnt r st1 cnt1 ot :
  row_step st cnt r = (st1, cnt1, inr ot) ->
  exists v l k,
    total_lineas cnt1 = S (total_lineas cnt) /\
    lineas_validas cnt1 = (lineas_validas cnt + v)%nat /\
    l1_total cnt1 = (l1_total cnt + l)%nat /\
    l1_trades_emitidos cnt1 = (l1_trades_emitidos cnt + length (option_list ot))%nat /\
    clamps_aplicados cnt1 = (clamps_aplicados cnt + k)%nat /\
    (k <= length (option_list ot) <= l)%nat /\ (l <= v <= 1)%nat.
Proof.
  row_cases; intros H; inversion H; subst; simpl;
    first [ exists 0%nat, 0%nat, 0%nat; simpl; lia
          | exists 1%nat, 0%nat, 0%nat; simpl; lia
          | exists 1%nat, 1%nat, 0%nat; simpl; lia
          | exists 1%nat, 1%nat, 1%nat; simpl; lia ].
Qed.

(** The counters a completed loop returns: one line per row, and
    clamps <= lines written <= Level-1 rows <= valid rows <= rows, each
    counted from the initial counters; lines written is the number of
    lines the loop emitted. *)
Theorem rows_loop_counters st cnt rows st' ts cnt' :
  rows_loop st cnt rows = (st', ts, inr cnt') ->
  exists v l k,
    total_lineas cnt' = (total_lineas cnt + length rows)%nat /\
    lineas_validas cnt' = (lineas_validas cnt + v)%nat /\
    l1_total cnt' = (l1_total cnt + l)%nat /\
    l1_trades_emitidos cnt' = (l1_trades_emitidos cnt + length ts)%nat /\
    clamps_aplicados cnt' = (clamps_aplicados cnt + k)%nat /\
    (k <= length ts <= l)%nat /\ (l <= v <= length rows)%nat.
Proof.
  revert st cnt ts. induction rows as [|r rs IH]; intros st cnt ts H.
  - injection H as <- <- <-. exists 0%nat, 0%nat, 0%nat. simpl. lia.
  - simpl in H. destruct (row_step st cnt r) as [[st1 cnt1] [e|ot]] eqn:E; [discriminate|].
    destruct (rows_loop st1 cnt1 rs) as [[st2 ts2] r2] eqn:E2. injection H as -> <- ->.
    destruct (row_step_counters _ _ _ _ _ _ E) as (v1 & l1 & k1 & A1 & B1 & C1 & D1 & F1 & G1 & H1).
    destruct (IH _ _ _ E2) as (v2 & l2 & k2 & A2 & B2 & C2 & D2 & F2 & G2 & H2).
    exists (v1 + v2)%nat, (l1 + l2)%nat, (k1 + k2)%nat.
    rewrite length_app. simpl length. lia.
Qed.

Lemma rows_loop_counters_witness :
  exists v l k,
    total_lineas (mkCounters 3 3 3 1 1) = (total_lineas zero_counters + 3)%nat /\
    lineas_validas (mkCounters 3 3 3 1 1) = (lineas_validas zero_counters + v)%nat /\
    l1_total (mkCounters 3 3 3 1 1) = (l1_total zero_counters + l)%nat /\
    l1_trades_emitidos (mkCounters 3 3 3 1 1) = (l1_trades_emitidos zero_counters + 1)%nat /\
    clamps_aplicados (mkCounters 3 3 3 1 1) = (clamps_aplicados zero_counters + k)%nat /\
    (k <= 1 <= l)%nat /\ (l <= v <= 3)%nat.
Proof.
  apply (rows_loop_counters empty_l1 zero_counters (fst (iter_csv_lineas es_text))
           (mkL1State (Some (u "5000.50")) (Some (u "5000.00")) (Some (u "5000.25")))
           [mkTick (u "20240101") (u "093000") (u "3234560") (u "5000.50") (u "5000.00")
                   (u "5000.50") (u "3")]).
  vm_compute. reflexivity.
Defined.

(* ------------------------------------------------------------------ *)
(** ** [ts20_to_nt_parts] *)

(** On a 20-character timestamp the three parts have 8, 6 and 7
    characters, and together they are the timestamp followed by ["0"]. *)
Theorem ts20_to_nt_parts_concat ts :
  length ts = 20%nat ->
  let '(fecha, hora, frac7) := ts20_to_nt_parts ts in
  fecha ++ hora ++ frac7 = ts ++ u "0" /\
  length fecha = 8%nat /\ length hora = 6%nat /\ length frac7 = 7%nat.
Proof.
  intros H.
  do 20 (destruct ts as [|? ts]; [discriminate|]).
  destruct ts; [|discriminate]. vm_compute. repeat split.
Qed.

Lemma ts20_to_nt_parts_concat_witness :
  let '(fecha, hora, frac7) := ts20_to_nt_parts (u "20240101093000123456") in
  fecha ++ hora ++ frac7 = u "20240101093000123456" ++ u "0" /\
  length fecha = 8%nat /\ length hora = 6%nat /\ length frac7 = 7%nat.
Proof. apply ts20_to_nt_parts_concat. reflexivity. Defined.

(* ------------------------------------------------------------------ *)
(** ** Contract labels and file names *)

Lemma fmt02d_check :
  forallb (fun n => bool_decide (fmt02d (Z.of_nat n) =
                                 [48 + Z.of_nat n / 10; 48 + Z.of_nat n mod 10]))
          (seq 0 100) = true.
Proof. vm_compute. reflexivity. Qed.

Lemma fmt02d_two_digits n :
  0 <= n <= 99 -> fmt02d n = [48 + n / 10; 48 + n mod 10].
Proof.
  intros Hn. pose proof fmt02d_check as H. rewrite forallb_forall in H.
  specialize (H (Z.to_nat n)). rewrite Z2Nat.id in H by lia.
  assert (Hin : In (Z.to_nat n) (seq 0 100)) by (apply in_seq; lia).
  specialize (H Hin). case_bool_decide; [assumption | discriminate].
Qed.

(** The output file of a contract whose month is in [0..99] is named
    [SYMBOL MM-YY.Last.txt], [MM] the two digits of the month and [YY]
    the two digits of [year % 100]; so contracts whose years differ by a
    multiple of 100 share one output file. *)
Theorem outfile_name ck :
  0 <= ck_month ck <= 99 ->
  outfile ck =
    ck_symbol ck ++
    [32; 48 + ck_month ck / 10; 48 + ck_month ck mod 10; 45;
     48 + ck_year ck mod 100 / 10; 48 + ck_year ck mod 100 mod 10] ++ u ".Last.txt" /\
  forall k, outfile (mkContractKey (ck_symbol ck) (ck_month ck) (ck_year ck + 100 * k)) = outfile ck.
Proof.
  intros Hm. split.
  - unfold outfile, label.
    rewrite (fmt02d_two_digits (ck_month ck)) by lia.
    rewrite (fmt02d_two_digits (ck_year ck mod 100)) by (pose proof (Z.mod_pos_bound (ck_year ck) 100); lia).
    reflexivity.
  - intros k. unfold outfile, label. cbn [ck_symbol ck_month ck_year].
    rewrite Z.mul_comm, Z_mod_plus_full. reflexivity.
Qed.

Lemma outfile_name_witness :
  outfile (mkContractKey (u "ES") 3 2024) =
    ck_symbol (mkContractKey (u "ES") 3 2024) ++
    [32; 48 + 3 / 10; 48 + 3 mod 10; 45; 48 + 2024 mod 100 / 10; 48 + 2024 mod 100 mod 10] ++
    u ".Last.txt" /\
  forall k, outfile (mkContractKey (u "ES") 3 (2024 + 100 * k)) = outfile (mkContractKey (u "ES") 3 2024).
Proof. apply (outfile_name (mkContractKey (u "ES") 3 2024)). cbn. lia. Defined.

(* ------------------------------------------------------------------ *)
(** ** [second_friday] and [front_contract_for_date] *)

(** For every month of a valid year, [second_friday] is a valid date of
    that month, a Friday, between the 8th and the 14th: the second Friday
    of the month. *)
Theorem second_friday_any_month y m :
  1 <= y <= 9999 -> 1 <= m <= 12 ->
  let sf := second_friday y m in
  valid_date sf /\ year sf = y /\ month sf = m /\ weekday sf = 4 /\ 8 <= day sf <= 14.
Proof.
  intros Hy Hm. cbv zeta.
  pose proof (weekday_second_friday y m) as Hwd.
  destruct (second_friday_shape y m) as [o [Ho E]]. rewrite E in Hwd |- *.
  pose proof (days_in_month_ge_28 y m).
  unfold valid_date. cbn [year month day]. repeat split; try lia; exact Hwd.
Qed.

Lemma second_friday_any_month_witness :
  let sf := second_friday 2024 2 in
  valid_date sf /\ year sf = 2024 /\ month sf = 2 /\ weekday sf = 4 /\ 8 <= day sf <= 14.
Proof. apply second_friday_any_month; lia. Defined.

Lemma front_contract_bounds_aux d :
  valid_date d ->
  let '(cm, cy) := front_contract_for_date d in
  (cy = year d /\ (cm = 3 \/ cm = 6 \/ cm = 9 \/ cm = 12) /\ month d <= cm <= month d + 3) \/
  (cy = year d + 1 /\ cm = 3 /\ month d = 12).
Proof.
  destruct d as [y dm dd]. unfold valid_date. cbn [year month day]. intros Hv.
  unfold front_contract_for_date. cbn [year].
  destruct (second_friday_shape y 3) as [o3 [Ho3 E3]].
  destruct (second_friday_shape y 6) as [o6 [Ho6 E6]].
  destruct (second_friday_shape y 9) as [o9 [Ho9 E9]].
  destruct (second_friday_shape y 12) as [o12 [Ho12 E12]].
  rewrite E3, E6, E9, E12.
  date_cases; lia.
Qed.

(** For a valid date, the front contract is a quarterly month (March,
    June, September, December) of the date's own year, at most three
    months ahead of the date's month; or, for a date in December on or
    after the December roll, March of the next year. *)
Theorem front_contract_bounds d :
  valid_date d ->
  let '(cm, cy) := front_contract_for_date d in
  (cy = year d /\ (cm = 3 \/ cm = 6 \/ cm = 9 \/ cm = 12) /\ month d <= cm <= month d + 3) \/
  (cy = year d + 1 /\ cm = 3 /\ month d = 12).
Proof. exact (front_contract_bounds_aux d). Qed.

Lemma front_contract_bounds_witness :
  let '(cm, cy) := front_contract_for_date (mkdate 2024 12 20) in
  (cy = year (mkdate 2024 12 20) /\ (cm = 3 \/ cm = 6 \/ cm = 9 \/ cm = 12) /\
   month (mkdate 2024 12 20) <= cm <= month (mkdate 2024 12 20) + 3) \/
  (cy = year (mkdate 2024 12 20) + 1 /\ cm = 3 /\ month (mkdate 2024 12 20) = 12).
Proof. apply front_contract_bounds. vm_compute. repeat split; discriminate. Defined.

(** The front contract never moves backwards: for valid dates [d1 <= d2],
    the contract of [d1] is not later than the contract of [d2], ordered
    by (year, month). *)
Theorem front_contract_monotone d1 d2 :
  valid_date d1 -> valid_date d2 -> date_lt d2 d1 = false ->
  let '(cm1, cy1) := front_contract_for_date d1 in
  let '(cm2, cy2) := front_contract_for_date d2 in
  cy1 < cy2 \/ (cy1 = cy2 /\ cm1 <= cm2).
Proof.
  intros H1 H2 Hle.
  pose proof (front_contract_bounds_aux d1 H1) as B1.
  pose proof (front_contract_bounds_aux d2 H2) as B2.
  apply date_lt_false in Hle. unfold date_ltP in Hle.
  destruct (front_contract_for_date d1) as [cm1 cy1] eqn:F1.
  destruct (front_contract_for_date d2) as [cm2 cy2] eqn:F2.
  destruct (Z.eq_dec (year d1) (year d2)) as [Hy|Hy]; [|lia].
  destruct d1 as [y dm1 dd1], d2 as [y2 dm2 dd2]. cbn [year month day] in *. subst y2.
  unfold valid_date in H1, H2. cbn [year month day] in H1, H2.
  revert F1 F2. unfold front_contract_for_date. cbn [year].
  destruct (second_friday_shape y 3) as [o3 [Ho3 E3]].
  destruct (second_friday_shape y 6) as [o6 [Ho6 E6]].
  destruct (second_friday_shape y 9) as [o9 [Ho9 E9]].
  destruct (second_friday_shape y 12) as [o12 [Ho12 E12]].
  rewrite E3, E6, E9, E12.
  date_cases; intros F1 F2; injection F1 as <- <-; injection F2 as <- <-; lia.
Qed.

Lemma front_contract_monotone_witness :
  let '(cm1, cy1) := front_contract_for_date (mkdate 2024 3 7) in
  let '(cm2, cy2) := front_contract_for_date (mkdate 2024 3 8) in
  cy1 < cy2 \/ (cy1 = cy2 /\ cm1 <= cm2).
Proof. apply front_contract_monotone; vm_compute; first [reflexivity | repeat split; discriminate]. Defined.

(* ------------------------------------------------------------------ *)
(** ** [int()] on decimal digits and [infer_trade_date_from_filename] *)

(** The value of a string of decimal digits (any Unicode Nd run). *)
Definition num_value (s : pystr) : Z :=
  fold_left (fun acc c => acc * 10 + default 0 (decimal_value c)) s 0.

Lemma decimal_value_range c v :
  decimal_value c = Some v -> exists z, In z nd_zeros /\ z <= c <= z + 9 /\ v = c - z.
Proof.
  unfold decimal_value. destruct (List.find _ nd_zeros) as [z|] eqn:E; [|discriminate].
  intros H. injection H as <-. apply List.find_some in E as [Hin Hz].
  apply andb_true_iff in Hz as [H1 H2]. apply Z.leb_le in H1. apply Z.leb_le in H2.
  exists z. auto.
Qed.

Lemma is_space_cases c :
  is_space c = true ->
  (9 <= c <= 13) \/ (28 <= c <= 32) \/ c = 133 \/ c = 160 \/ c = 5760 \/
  (8192 <= c <= 8202) \/ c = 8232 \/ c = 8233 \/ c = 8239 \/ c = 8287 \/ c = 12288.
Proof.
  unfold is_space. intros H.
  repeat rewrite orb_true_iff in H. repeat rewrite andb_true_iff in H.
  repeat rewrite Z.leb_le in H. repeat rewrite Z.eqb_eq in H. lia.
Qed.

Lemma decimal_not_space c : is_decimal c = true -> is_space c = false.
Proof.
  unfold is_decimal. intros H. apply bool_decide_eq_true_1 in H as [v Hv].
  apply decimal_value_range in Hv as (z & Hin & Hz & _).
  destruct (is_space c) eqn:E; [|reflexivity]. apply is_space_cases in E.
  simpl in Hin. exfalso. repeat destruct Hin as [<-|Hin]; [..|contradiction]; lia.
Qed.

Lemma decimal_not_sign c : is_decimal c = true -> c <> 45 /\ c <> 43.
Proof.
  unfold is_decimal. intros H. apply bool_decide_eq_true_1 in H as [v Hv].
  apply decimal_value_range in Hv as (z & Hin & Hz & _).
  simpl in Hin. repeat destruct Hin as [<-|Hin]; [..|contradiction]; lia.
Qed.

Lemma decimal_value_bounds c v : decimal_value c = Some v -> 0 <= v <= 9.
Proof. intros H. apply decimal_value_range in H as (z & _ & Hz & ->). lia. Qed.

(** The only decimal digits below U+007F are the ASCII ones. *)
Lemma decimal_ascii c v : decimal_value c = Some v -> c < 127 -> c = 48 + v.
Proof.
  intros H Hc. apply decimal_value_range in H as (z & Hin & Hz & ->).
  simpl in Hin. repeat destruct Hin as [<-|Hin]; [..|contradiction]; lia.
Qed.

Definition digit_of (c : Z) : Z := default 0 (decimal_value c).

Lemma int_ascii_decimals s :
  forallb is_decimal s = true -> int_ascii s = Some (map (fun c => 48 + digit_of c) s).
Proof.
  induction s as [|c t IH]; intros H; [reflexivity|].
  simpl in H. apply andb_true_iff in H as [Hc Ht].
  pose proof (decimal_not_space c Hc) as Hsp.
  unfold is_decimal in Hc. apply bool_decide_eq_true_1 in Hc as [v Hv].
  cbn [int_ascii map]. rewrite (IH Ht). unfold int_ascii_char, digit_of. rewrite Hv. cbn [default].
  destruct (Z.ltb_spec c 127) as [Hlt|Hge].
  - rewrite (decimal_ascii c v Hv Hlt) at 1. reflexivity.
  - rewrite Hsp. reflexivity.
Qed.

Lemma int_body_digits acc n s :
  forallb is_decimal s = true ->
  int_body acc n false (map (fun c => 48 + digit_of c) s) =
    Some (fold_left (fun acc c => acc * 10 + digit_of c) s acc, (n + length s)%nat).
Proof.
  revert acc n. induction s as [|c t IH]; intros acc n H.
  - cbn. rewrite Nat.add_0_r. reflexivity.
  - simpl in H. apply andb_true_iff in H as [Hc Ht].
    unfold is_decimal in Hc. apply bool_decide_eq_true_1 in Hc as [v Hv].
    pose proof (decimal_value_bounds c v Hv) as Hb.
    assert (Hd : digit_of c = v) by (unfold digit_of; rewrite Hv; reflexivity).
    cbn [map int_body fold_left length]. rewrite Hd.
    replace (is_ascii_digit (48 + v)) with true
      by (symmetry; unfold is_ascii_digit; apply andb_true_iff; split; apply Z.leb_le; lia).
    rewrite (IH _ _ Ht). replace (48 + v - 48) with v by lia. rewrite Nat.add_succ_r. reflexivity.
Qed.

(** [int()] of a non-empty string of at most 4300 decimal digits (of any
    Unicode Nd run) is the number they spell. *)
Lemma py_int_decimals s :
  s <> [] -> (length s <= int_max_str_digits)%nat -> forallb is_decimal s = true ->
  py_int s = Some (num_value s).
Proof.
  intros Hne Hlen H. unfold py_int. rewrite (int_ascii_decimals s H).
  destruct s as [|c t]; [contradiction|].
  pose proof H as H'. simpl in H'. apply andb_true_iff in H' as [Hc Ht].
  unfold is_decimal in Hc. apply bool_decide_eq_true_1 in Hc as [v Hv].
  pose proof (decimal_value_bounds c v Hv) as Hb.
  assert (Hd : digit_of c = v) by (unfold digit_of; rewrite Hv; reflexivity).
  unfold num_value. cbn [fold_left map]. fold digit_of. rewrite Hd.
  pose proof (int_body_digits v 1 t Ht) as Hi.
  replace v with (48 + v - 48) in Hi at 1 by lia.
  cbn [length] in Hlen. rewrite Hv.
  assert (Hv10 : v = 0 \/ v = 1 \/ v = 2 \/ v = 3 \/ v = 4 \/ v = 5 \/ v = 6 \/ v = 7 \/ v = 8 \/ v = 9)
    by lia.
  destruct Hv10 as [->|[->|[->|[->|[->|[->|[->|[->|[->| ->]]]]]]]]]; simpl;
    rewrite Hi; cbv beta iota;
    (destruct (Nat.leb_spec (1 + length t) int_max_str_digits); [reflexivity | lia]).
Qed.

Lemma forallb_firstn_skipn {A} (f : A -> bool) n l :
  forallb f l = true -> forallb f (firstn n l) = true /\ forallb f (skipn n l) = true.
Proof.
  rewrite <- (firstn_skipn n l) at 1. rewrite forallb_app. apply andb_true_iff.
Qed.

(** A file named [ds.csv], [ds] eight decimal digits (ASCII or any other
    Unicode decimal digits), gives what [date()] makes of the numbers
    spelled by [ds[:4]], [ds[4:6]] and [ds[6:8]]: that date when it is a
    valid calendar date, its [ValueError] otherwise. *)
Theorem infer_trade_date_digits p ds :
  path_name p = ds ++ u ".csv" -> length ds = 8%nat -> forallb is_decimal ds = true ->
  infer_trade_date_from_filename p =
    py_date (num_value (slice 0 4 ds)) (num_value (slice 4 6 ds)) (num_value (slice 6 8 ds)).
Proof.
  intros Hn Hl Hd. unfold infer_trade_date_from_filename, file_date_match. rewrite Hn.
  rewrite firstn_app, Hl, Nat.sub_diag, firstn_O, app_nil_r, firstn_all2 by lia.
  rewrite skipn_app, Hl, Nat.sub_diag, skipn_O.
  replace (skipn 8 ds) with (@nil Z) by (symmetry; apply skipn_all2; lia).
  rewrite Hd. simpl.
  assert (Hs : forall i j, (i < j <= 8)%nat ->
            forallb is_decimal (slice i j ds) = true /\ slice i j ds <> [] /\
            (length (slice i j ds) <= int_max_str_digits)%nat).
  { intros i j Hij. unfold slice. split; [|split].
    - apply (forallb_firstn_skipn _ (j - i) (skipn i ds)).
      apply (forallb_firstn_skipn _ i ds Hd).
    - intros E. apply (f_equal (@length Z)) in E. rewrite length_firstn, length_skipn in E.
      simpl in E. lia.
    - rewrite length_firstn. unfold int_max_str_digits. lia. }
  destruct (Hs 0%nat 4%nat ltac:(lia)) as (A1 & B1 & C1).
  destruct (Hs 4%nat 6%nat ltac:(lia)) as (A2 & B2 & C2).
  destruct (Hs 6%nat 8%nat ltac:(lia)) as (A3 & B3 & C3).
  unfold int_or_raise.
  rewrite (py_int_decimals _ B1 C1 A1), (py_int_decimals _ B2 C2 A2), (py_int_decimals _ B3 C3 A3).
  reflexivity.
Qed.

Lemma infer_trade_date_digits_witness :
  infer_trade_date_from_filename [u "data"; [6114; 6112; 6114; 6116] ++ u "0229.csv"] =
    let ds := [6114; 6112; 6114; 6116] ++ u "0229" in
    py_date (num_value (slice 0 4 ds)) (num_value (slice 4 6 ds)) (num_value (slice 6 8 ds)).
Proof. apply infer_trade_date_digits; vm_compute; reflexivity. Defined.

(* ------------------------------------------------------------------ *)
(** ** One day file: what [export_csv_day_to_contract_last_allformat] changes *)










(** The counters of the files reported as processed. *)
Definition report_counters (r : FileReport) : option Counters :=
  match r with Processed c => Some c | Skipped _ => None end.

Definition sum_counters (cs : list Counters) : Counters :=
  foldr add_counters zero_counters cs.

Lemma add_counters_assoc a b c :
  add_counters (add_counters a b) c = add_counters a (add_counters b c).
Proof. destruct a, b, c; unfold add_counters; cbn; f_equal; lia. Qed.

Lemma add_counters_zero_r a : add_counters a zero_counters = a.
Proof. destruct a; unfold add_counters; cbn; f_equal; lia. Qed.

Lemma add_counters_zero_l a : add_counters zero_counters a = a.
Proof. destruct a; reflexivity. Qed.

Lemma main_loop_totals out forced_symbol files :
  forall s w w' s', main_loop out forced_symbol files s w = (w', inr s') ->
  exists rs, reports s' = reports s ++ rs /\
    totals s' = add_counters (totals s) (sum_counters (omap report_counters rs)).
Proof.
  induction files as [|f fs IH]; intros s w w' s' E.
  - cbn in E. injection E as <- <-. exists []. split.
    + by rewrite app_nil_r.
    + by rewrite add_counters_zero_r.
  - cbn [main_loop] in E. unfold mbind, M_bind, try_except, mret, M_ret, py_print, raise in E.
    destruct (export_csv_day_to_contract_last_allformat out f forced_symbol w) as [w1 [e|c]];
      [destruct (printable out (warn_line f e)); [|discriminate]|];
      cbn in E; apply IH in E as (rs & Hr & Ht); cbn in Hr, Ht.
    + exists (Skipped e :: rs). rewrite Hr, <- app_assoc. split; [reflexivity|exact Ht].
    + exists (Processed c :: rs). rewrite Hr, <- app_assoc. split; [reflexivity|].
      rewrite Ht, add_counters_assoc. reflexivity.
Qed.

(** The totals [main] prints in its summary are the sums, field by field,
    of the counters of the files it processed; a skipped file adds nothing
    to them. *)
Theorem run_main_totals out forced_symbol files disk w s :
  run_main out forced_symbol files disk = (w, inr s) ->
  totals s = sum_counters (omap report_counters (reports s)).
Proof.
  unfold run_main. destruct files as [|f fs].
  - cbv [mbind M_bind py_print mret M_ret raise].
    destruct (printable out info_line); intros E; [|discriminate]. injection E as _ <-. reflexivity.
  - cbv [mbind M_bind py_print mret M_ret raise with_writers].
    destruct (main_loop out forced_symbol (f :: fs) zero_summary _) as [w1 [e|r]] eqn:E;
      [discriminate|].
    destruct (printable out (summary_text r)); intros E'; [|discriminate].
    injection E' as _ <-.
    apply main_loop_totals in E as (rs & Hr & Ht).
    rewrite Ht, Hr. cbn. apply add_counters_zero_l.
Qed.

Lemma run_main_totals_witness :
  let sm := mkSummary 2 (mkCounters 3 3 3 1 1)
              [Processed (mkCounters 3 3 3 1 1); Skipped (symbol_error [u "data"; u "x.csv"])] in
  let '(w, r) := run_main utf8_strict None [es_file; mkInputFile [u "data"; u "x.csv"] None] ∅ in
  r = inr sm /\ totals sm = sum_counters (omap report_counters (reports sm)).
Proof.
  intros sm.
  destruct (run_main utf8_strict None [es_file; mkInputFile [u "data"; u "x.csv"] None] ∅)
    as [w r] eqn:E.
  assert (Hr : r = inr sm) by (unfold sm; vm_compute in E; vm_compute; congruence).
  split; [exact Hr|].
  subst r. exact (run_main_totals utf8_strict None _ ∅ w _ E).
Defined.

(** A character the dialect gives no meaning: not a line break, not the
    delimiter [;], not the double quote. *)
Definition csv_plain (c : Z) : bool :=
  negb (is_nl c) && negb (c =? DELIM) && negb (c =? QUOTE).

(** Rows whose fields hold plain characters only, each field within the
    reader's field limit, and no row empty or made of one empty field. *)
Definition csv_plain_rows (rows : list (list pystr)) : bool :=
  forallb (fun r => negb (bool_decide (r = [])) && negb (bool_decide (r = [[]])) &&
                    forallb (fun f => forallb csv_plain f &&
                                      (Z.of_nat (length f) <=? field_limit)) r) rows.

(** The fields joined with [;]. *)
Fixpoint join_fields (r : list pystr) : pystr :=
  match r with
  | [] => []
  | [f] => f
  | f :: rest => f ++ DELIM :: join_fields rest
  end.

(** The text of the rows, one [\n]-terminated line per row. *)
Definition csv_text (rows : list (list pystr)) : pystr :=
  concat (map (fun r => join_fields r ++ [10]) rows).

Definition csv_step (acc : option CsvParser) (c : Z) : option CsvParser :=
  match acc with Some q => parse_process_char q (Some c) | None => None end.

Lemma csv_step_none l : fold_left csv_step l None = None.
Proof. induction l; auto. Qed.

Lemma split_lines_cons cur c t :
  is_nl c = false -> split_lines cur (c :: t) = split_lines (cur ++ [c]) t.
Proof.
  unfold is_nl. intros Hc.
  destruct c as [|p|p]; [reflexivity| |reflexivity].
  do 5 (try (destruct p as [p|p|]; try reflexivity)); discriminate.
Qed.

Lemma split_lines_line cur l t :
  forallb (fun c => negb (is_nl c)) l = true ->
  split_lines cur (l ++ 10 :: t) = (cur ++ l ++ [10]) :: split_lines [] t.
Proof.
  revert cur. induction l as [|c l IH]; intros cur Hl.
  - reflexivity.
  - cbn in Hl. apply andb_prop in Hl as [Hc Hl]. apply negb_true_iff in Hc.
    cbn [app]. rewrite split_lines_cons by exact Hc. rewrite IH by exact Hl.
    by rewrite <- app_assoc.
Qed.

Lemma csv_in_field fs cur f :
  forallb csv_plain f = true ->
  Z.of_nat (length cur + length f) <= field_limit ->
  fold_left csv_step f (Some (mkParser IN_FIELD fs cur)) = Some (mkParser IN_FIELD fs (cur ++ f)).
Proof.
  revert cur. induction f as [|c f IH]; intros cur Hf Hlen.
  - by rewrite app_nil_r.
  - cbn in Hf. apply andb_prop in Hf as [Hc Hf]. unfold csv_plain in Hc.
    apply andb_prop in Hc as [Hc Hq]. apply andb_prop in Hc as [Hn Hd].
    apply negb_true_iff in Hn, Hd, Hq.
    cbn [fold_left]. unfold csv_step at 2. cbn [parse_process_char ps_state].
    rewrite Hn, Hd. unfold parse_add_char. cbn [ps_field ps_fields].
    cbn [length] in Hlen.
    destruct (Z.leb_spec field_limit (Z.of_nat (length cur))); [lia|].
    rewrite IH by (auto; rewrite length_app; cbn; lia).
    by rewrite <- app_assoc.
Qed.

Lemma csv_field_then s fs f d :
  (s = START_RECORD \/ s = START_FIELD) ->
  forallb csv_plain f = true ->
  Z.of_nat (length f) <= field_limit ->
  (d = DELIM \/ (d = 10 /\ (s = START_FIELD \/ f <> []))) ->
  fold_left csv_step (f ++ [d]) (Some (mkParser s fs [])) =
    Some (mkParser (if d =? DELIM then START_FIELD else EAT_CRNL) (fs ++ [f]) []).
Proof.
  intros Hs Hf Hlen Hd. destruct f as [|c f].
  - destruct Hs as [-> | ->];
      (destruct Hd as [-> | [-> [Hs | Hne]]]; [reflexivity | | congruence]);
      first [reflexivity | discriminate].
  - cbn in Hf. apply andb_prop in Hf as [Hc Hf]. unfold csv_plain in Hc.
    apply andb_prop in Hc as [Hc Hq]. apply andb_prop in Hc as [Hn Hdl].
    apply negb_true_iff in Hn, Hdl, Hq.
    assert (Hstart : parse_process_char (mkParser s fs []) (Some c) =
                     Some (mkParser IN_FIELD fs [c])).
    { destruct Hs as [-> | ->]; cbn [parse_process_char ps_state];
        [rewrite Hn|]; unfold start_field; rewrite Hn, Hq, Hdl; reflexivity. }
    cbn [app fold_left]. unfold csv_step at 2. rewrite Hstart.
    rewrite fold_left_app. rewrite csv_in_field by (auto; cbn in Hlen |- *; lia).
    cbn. destruct Hd as [-> | [-> _]]; reflexivity.
Qed.

Lemma csv_row_ok r :
  forallb (fun f => forallb csv_plain f && (Z.of_nat (length f) <=? field_limit)) r = true ->
  Forall (fun f => forallb csv_plain f = true /\ Z.of_nat (length f) <= field_limit) r.
Proof.
  intros H. apply Forall_forall. intros f Hin. apply list_elem_of_In in Hin.
  eapply forallb_forall in H; [|exact Hin].
  apply andb_prop in H as [H1 H2]. split; [exact H1 | lia].
Qed.

Lemma csv_feed_row r fs s :
  r <> [] -> (s = START_FIELD \/ (s = START_RECORD /\ r <> [[]])) ->
  Forall (fun f => forallb csv_plain f = true /\ Z.of_nat (length f) <= field_limit) r ->
  fold_left csv_step (join_fields r ++ [10]) (Some (mkParser s fs [])) =
    Some (mkParser EAT_CRNL (fs ++ r) []).
Proof.
  revert fs s. induction r as [|f rest IH]; intros fs s Hne Hs Hok; [congruence|].
  apply Forall_cons in Hok as [[Hf Hl] Hok].
  destruct rest as [|g rest'].
  - cbn [join_fields]. rewrite csv_field_then; auto.
    + destruct Hs as [-> | [-> _]]; auto.
    + right. split; [reflexivity|].
      destruct Hs as [-> | [_ Hn]]; [now left | right; intros ->; congruence].
  - change (join_fields (f :: g :: rest')) with (f ++ DELIM :: join_fields (g :: rest')).
    replace ((f ++ DELIM :: join_fields (g :: rest')) ++ [10])
      with ((f ++ [DELIM]) ++ (join_fields (g :: rest') ++ [10]))
      by (rewrite <- !app_assoc; reflexivity).
    rewrite fold_left_app, csv_field_then; auto.
    + cbn. rewrite IH by (auto; congruence). by rewrite <- app_assoc.
    + destruct Hs as [-> | [-> _]]; auto.
Qed.

Lemma join_fields_no_nl r :
  Forall (fun f => forallb csv_plain f = true /\ Z.of_nat (length f) <= field_limit) r ->
  forallb (fun c => negb (is_nl c)) (join_fields r) = true.
Proof.
  assert (Hp : forall f, forallb csv_plain f = true -> forallb (fun c => negb (is_nl c)) f = true).
  { intros f. rewrite !forallb_forall. intros H c Hc. specialize (H c Hc).
    unfold csv_plain in H. destruct (is_nl c); [discriminate|reflexivity]. }
  induction r as [|f rest IH]; intros Hok; [reflexivity|].
  apply Forall_cons in Hok as [[Hf _] Hok].
  destruct rest as [|g rest']; [auto|].
  change (join_fields (f :: g :: rest')) with (f ++ DELIM :: join_fields (g :: rest')).
  rewrite forallb_app. cbn [forallb]. rewrite Hp, IH by auto. reflexivity.
Qed.

(** Reading a file of plain [;]-separated rows, one per [\n]-terminated
    line, gives back exactly those rows, in order, and no [csv.Error]:
    with no quote, delimiter or line break inside a field, each field
    within the field limit, and no row empty or of one empty field, the
    reader neither merges, splits nor drops rows. *)
Theorem iter_csv_lineas_plain rows :
  csv_plain_rows rows = true ->
  iter_csv_lineas (csv_text rows) = (rows, None).
Proof.
  intros H. unfold iter_csv_lineas, csv_text.
  assert (Hsplit : forall rs, csv_plain_rows rs = true ->
            split_lines [] (concat (map (fun r => join_fields r ++ [10]) rs)) =
            map (fun r => join_fields r ++ [10]) rs).
  { induction rs as [|r rs IH]; intros Hr; [reflexivity|].
    cbn in Hr. apply andb_prop in Hr as [Hr Hrs]. apply andb_prop in Hr as [_ Hr].
    cbn [map concat]. rewrite <- app_assoc. cbn [app].
    rewrite split_lines_line by (apply join_fields_no_nl, csv_row_ok, Hr).
    rewrite IH by exact Hrs. reflexivity. }
  assert (Hrec : forall rs, csv_plain_rows rs = true ->
            csv_records parser_reset (map (fun r => join_fields r ++ [10]) rs) = (rs, None)).
  { induction rs as [|r rs IH]; intros Hr; [reflexivity|].
    cbn in Hr. apply andb_prop in Hr as [Hr Hrs]. apply andb_prop in Hr as [Hr Hok].
    apply andb_prop in Hr as [Hne Hne1]. apply negb_true_iff in Hne, Hne1.
    apply bool_decide_eq_false in Hne, Hne1.
    cbn [map csv_records]. unfold process_line.
    change (fun acc c => match acc with Some q => parse_process_char q (Some c) | None => None end)
      with csv_step.
    unfold parser_reset at 1.
    rewrite (csv_feed_row r [] START_RECORD Hne (or_intror (conj eq_refl Hne1)) (csv_row_ok r Hok)).
    cbn. rewrite IH by exact Hrs. reflexivity. }
  rewrite Hsplit, Hrec by exact H. f_equal.
  clear Hsplit Hrec. induction rows as [|r rs IH]; [reflexivity|].
  cbn in H. apply andb_prop in H as [Hr Hrs]. apply andb_prop in Hr as [Hr _].
  apply andb_prop in Hr as [Hne _]. apply negb_true_iff in Hne.
  cbn. rewrite Hne. cbn. rewrite IH by exact Hrs. reflexivity.
Qed.

Lemma iter_csv_lineas_plain_witness :
  csv_plain_rows [[u "a"; u ""]; [u ""; u "2"; u "3"]; [u "x"]] = true /\
  iter_csv_lineas (csv_text [[u "a"; u ""]; [u ""; u "2"; u "3"]; [u "x"]]) =
    ([[u "a"; u ""]; [u ""; u "2"; u "3"]; [u "x"]], None).
Proof.
  split; [vm_compute; reflexivity|].
  apply iter_csv_lineas_plain. vm_compute. reflexivity.
Defined.

(* ------------------------------------------------------------------ *)
(** ** The driver when every warning can be printed *)

























